(** * Pyrr: 3x3 matrices and rays

    A shallow embedding of [pyrr/matrix33.py] and [pyrr/ray.py].

    Scalars.  The arrays of the library hold floating-point numbers; they
    are embedded as real numbers, so every statement below is exact real
    arithmetic (no rounding, no NaN or infinity, no integer [dtype]).

    Arrays.  A vector of three scalars is a triple, a quaternion a
    quadruple [(x, y, z, w)], a 3x3 matrix a triple of rows, written the
    way the source writes its nested array literals.  The argument [vec]
    of [apply_to_vector], whose size the code inspects at run time, is a
    list.

    Errors.  A function that can raise returns a [result].

    Mutation.  [ray.invert] updates an array in place; the arrays it works
    on live in a store indexed by locations (module [ray]). *)

From Stdlib Require Import Reals Lra RNsatz List String.
From stdpp Require Import gmap.
Import ListNotations.
Open Scope R_scope.

(** ** Values *)

Inductive exn : Type :=
  | ValueError (msg : string)
  | LinAlgError (msg : string)
  | IndexError (msg : string).

Inductive result (A : Type) : Type :=
  | Ok (a : A)
  | Raise (e : exn).
Arguments Ok {A} a.
Arguments Raise {A} e.

Definition Vec3 : Type := R * R * R.
Definition Quaternion : Type := R * R * R * R.
Definition Matrix33 : Type := Vec3 * Vec3 * Vec3.
Definition Vec4 : Type := R * R * R * R.
Definition Matrix44 : Type := Vec4 * Vec4 * Vec4 * Vec4.

(** The scalars of an array in storage order ([ndarray.ravel]). *)
Class Array (A : Type) : Type := ravel : A -> list R.

#[export] Instance Vec3_Array : Array Vec3 :=
  fun v => let '(x, y, z) := v in [x; y; z].
#[export] Instance Quaternion_Array : Array Quaternion :=
  fun q => let '(x, y, z, w) := q in [x; y; z; w].
#[export] Instance Matrix33_Array : Array Matrix33 :=
  fun m => let '(r0, r1, r2) := m in ravel r0 ++ ravel r1 ++ ravel r2.

(** ** The numeric backend

    The functions of numpy the two modules call, on the arrays above. *)
Module np.

(** Defaults of [numpy.isclose]: [rtol=1e-05], [atol=1e-08]. *)
Definition rtol : R := / 10 ^ 5.
Definition atol : R := / 10 ^ 8.

(** [isclose(a, b)]: [|a - b| <= atol + rtol * |b|]. *)
Definition isclose (a b : R) : bool :=
  if Rle_dec (Rabs (a - b)) (atol + rtol * Rabs b) then true else false.

Definition sum_sq (l : list R) : R :=
  fold_right (fun x s => x ^ 2 + s) 0 l.

(** [linalg.norm(a)]: the 2-norm of the flattened array. *)
Definition norm {A : Type} `{Array A} (a : A) : R :=
  sqrt (sum_sq (ravel a)).

(** [dot(vec, mat)] for a one-dimensional [vec] of three scalars:
    the row vector [vec] times [mat]. *)
Definition dot (vec : list R) (mat : Matrix33) : list R :=
  let '((m00, m01, m02), (m10, m11, m12), (m20, m21, m22)) := mat in
  let v i := nth i vec 0 in
  [ v 0%nat * m00 + v 1%nat * m10 + v 2%nat * m20;
    v 0%nat * m01 + v 1%nat * m11 + v 2%nat * m21;
    v 0%nat * m02 + v 1%nat * m12 + v 2%nat * m22 ].

(** [dot(m1, m2)] for two matrices: the rows of [m1] times [m2]. *)
Definition matmul (m1 m2 : Matrix33) : Matrix33 :=
  let '((a00, a01, a02), (a10, a11, a12), (a20, a21, a22)) := m1 in
  let '((b00, b01, b02), (b10, b11, b12), (b20, b21, b22)) := m2 in
  ( ( a00 * b00 + a01 * b10 + a02 * b20,
      a00 * b01 + a01 * b11 + a02 * b21,
      a00 * b02 + a01 * b12 + a02 * b22 ),
    ( a10 * b00 + a11 * b10 + a12 * b20,
      a10 * b01 + a11 * b11 + a12 * b21,
      a10 * b02 + a11 * b12 + a12 * b22 ),
    ( a20 * b00 + a21 * b10 + a22 * b20,
      a20 * b01 + a21 * b11 + a22 * b21,
      a20 * b02 + a21 * b12 + a22 * b22 ) ).

(** [identity(3)]. *)
Definition identity3 : Matrix33 :=
  ((1, 0, 0), (0, 1, 0), (0, 0, 1)).

(** [diagflat(scale)]. *)
Definition diagflat (scale : Vec3) : Matrix33 :=
  let '(sx, sy, sz) := scale in
  ((sx, 0, 0), (0, sy, 0), (0, 0, sz)).

(** [mat.T]. *)
Definition transpose (m : Matrix33) : Matrix33 :=
  let '((m00, m01, m02), (m10, m11, m12), (m20, m21, m22)) := m in
  ((m00, m10, m20), (m01, m11, m21), (m02, m12, m22)).

Definition det (m : Matrix33) : R :=
  let '((a, b, c), (d, e, f), (g, h, i)) := m in
  a * (e * i - f * h) - b * (d * i - f * g) + c * (d * h - e * g).

(** The transposed matrix of cofactors. *)
Definition adjugate (m : Matrix33) : Matrix33 :=
  let '((a, b, c), (d, e, f), (g, h, i)) := m in
  ( ( e * i - f * h, c * h - b * i, b * f - c * e ),
    ( f * g - d * i, a * i - c * g, c * d - a * f ),
    ( d * h - e * g, b * g - a * h, a * e - b * d ) ).

Definition scale_mat (k : R) (m : Matrix33) : Matrix33 :=
  let '((a, b, c), (d, e, f), (g, h, i)) := m in
  ((k * a, k * b, k * c), (k * d, k * e, k * f), (k * g, k * h, k * i)).

(** Modelled from the spec: [numpy.linalg.inv], the dense inverse
    routine of the numeric backend, which is not part of the sources.
    The spec has it fail with a singular-matrix condition when the
    matrix has no well-defined inverse and return the inverse
    otherwise; over the reals a matrix has no inverse exactly when its
    determinant is zero, and the inverse is the adjugate over the
    determinant. *)
Definition linalg_inv (m : Matrix33) : result Matrix33 :=
  if Req_dec_T (det m) 0
  then Raise (LinAlgError "Singular matrix")
  else Ok (scale_mat (/ det m) (adjugate m)).

(** [dot(m1, m2)] for two 4x4 matrices. *)
Definition matmul44 (m1 m2 : Matrix44) : Matrix44 :=
  let '((a00, a01, a02, a03), (a10, a11, a12, a13),
        (a20, a21, a22, a23), (a30, a31, a32, a33)) := m1 in
  let '((b00, b01, b02, b03), (b10, b11, b12, b13),
        (b20, b21, b22, b23), (b30, b31, b32, b33)) := m2 in
  ( ( a00 * b00 + a01 * b10 + a02 * b20 + a03 * b30,
      a00 * b01 + a01 * b11 + a02 * b21 + a03 * b31,
      a00 * b02 + a01 * b12 + a02 * b22 + a03 * b32,
      a00 * b03 + a01 * b13 + a02 * b23 + a03 * b33 ),
    ( a10 * b00 + a11 * b10 + a12 * b20 + a13 * b30,
      a10 * b01 + a11 * b11 + a12 * b21 + a13 * b31,
      a10 * b02 + a11 * b12 + a12 * b22 + a13 * b32,
      a10 * b03 + a11 * b13 + a12 * b23 + a13 * b33 ),
    ( a20 * b00 + a21 * b10 + a22 * b20 + a23 * b30,
      a20 * b01 + a21 * b11 + a22 * b21 + a23 * b31,
      a20 * b02 + a21 * b12 + a22 * b22 + a23 * b32,
      a20 * b03 + a21 * b13 + a22 * b23 + a23 * b33 ),
    ( a30 * b00 + a31 * b10 + a32 * b20 + a33 * b30,
      a30 * b01 + a31 * b11 + a32 * b21 + a33 * b31,
      a30 * b02 + a31 * b12 + a32 * b22 + a33 * b32,
      a30 * b03 + a31 * b13 + a32 * b23 + a33 * b33 ) ).

(** [identity(4)]. *)
Definition identity4 : Matrix44 :=
  ((1, 0, 0, 0), (0, 1, 0, 0), (0, 0, 1, 0), (0, 0, 0, 1)).

End np.

(** ** Collaborators absent from the sources *)

Module vector.

(** Modelled from the spec: [vector.normalise] of the Vector3 module,
    which is not part of the sources ("Vector3 normalization": the
    vector divided by its length). *)
Definition normalise (vec : Vec3) : Vec3 :=
  let '(x, y, z) := vec in
  let n := np.norm vec in
  (x / n, y / n, z / n).

End vector.

Module quaternion.

(** Modelled from the spec: [quaternion.normalise] of the Quaternion
    module, which is not part of the sources (the quaternion divided by
    its norm). *)
Definition normalise (quat : Quaternion) : Quaternion :=
  let '(x, y, z, w) := quat in
  let n := np.norm quat in
  (x / n, y / n, z / n, w / n).

End quaternion.

(** ** [pyrr/matrix33.py] *)

Module matrix33.

Definition create_identity : Matrix33 :=
  np.identity3.

(** [mat[0:3,0:3]]: the first three rows and columns. *)
Definition create_from_matrix44 (mat : Matrix44) : Matrix33 :=
  let '((m00, m01, m02, _), (m10, m11, m12, _),
        (m20, m21, m22, _), _) := mat in
  ((m00, m01, m02), (m10, m11, m12), (m20, m21, m22)).

Definition create_from_eulers (eulers : Vec3) : Matrix33 :=
  let '(pitch, roll, yaw) := eulers in
  let pitchOver2 := pitch * (1 / 2) in
  let rollOver2 := roll * (1 / 2) in
  let yawOver2 := yaw * (1 / 2) in
  let sinPitch := sin pitchOver2 in
  let cosPitch := cos pitchOver2 in
  let sinRoll := sin rollOver2 in
  let cosRoll := cos rollOver2 in
  let sinYaw := sin yawOver2 in
  let cosYaw := cos yawOver2 in
  ( ( (cosYaw * cosRoll) + (sinYaw * sinPitch * sinRoll),
      (- cosYaw * sinRoll) + (sinYaw * sinPitch * cosRoll),
      sinYaw * cosPitch ),
    ( sinRoll * cosPitch,
      cosRoll * cosPitch,
      - sinPitch ),
    ( (- sinYaw * cosRoll) + (cosYaw * sinPitch * sinRoll),
      (sinRoll * sinYaw) + (cosYaw * sinPitch * cosRoll),
      cosYaw * cosPitch ) ).

Definition create_from_quaternion (quat : Quaternion) : Matrix33 :=
  (* the quaternion must be normalised *)
  let quat :=
    if negb (np.isclose (np.norm quat) 1)
    then quaternion.normalise quat
    else quat in
  let '(x, y, z, w) := quat in
  let y2 := y ^ 2 in
  let x2 := x ^ 2 in
  let z2 := z ^ 2 in
  let xy := x * y in
  let xz := x * z in
  let yz := y * z in
  let wx := w * x in
  let wy := w * y in
  let wz := w * z in
  ( ( 1 - 2 * (y2 + z2),
      2 * (xy + wz),
      2 * (xz - wy) ),
    ( 2 * (xy - wz),
      1 - 2 * (x2 + z2),
      2 * (yz + wx) ),
    ( 2 * (xz + wy),
      2 * (yz - wx),
      1 - 2 * (x2 + y2) ) ).

Definition create_from_inverse_of_quaternion (quat : Quaternion) : Matrix33 :=
  let '(x, y, z, w) := quat in
  let x2 := x ^ 2 in
  let y2 := y ^ 2 in
  let z2 := z ^ 2 in
  let wx := w * x in
  let wy := w * y in
  let xy := x * y in
  let wz := w * z in
  let xz := x * z in
  let yz := y * z in
  ( ( 1 - 2 * (y2 + z2),
      2 * (xy - wz),
      2 * (xz + wy) ),
    ( 2 * (xy + wz),
      1 - 2 * (x2 + z2),
      2 * (yz - wx) ),
    ( 2 * (xz - wy),
      2 * (yz - wx),
      1 - 2 * (x2 + y2) ) ).

Definition create_from_scale (scale : Vec3) : Matrix33 :=
  np.diagflat scale.

Definition create_from_x_rotation (theta : R) : Matrix33 :=
  let cosT := cos theta in
  let sinT := sin theta in
  ( ( 1, 0, 0 ),
    ( 0, cosT, - sinT ),
    ( 0, sinT, cosT ) ).

Definition create_from_y_rotation (theta : R) : Matrix33 :=
  let cosT := cos theta in
  let sinT := sin theta in
  ( ( cosT, 0, sinT ),
    ( 0, 1, 0 ),
    ( - sinT, 0, cosT ) ).

Definition create_from_z_rotation (theta : R) : Matrix33 :=
  let cosT := cos theta in
  let sinT := sin theta in
  ( ( cosT, - sinT, 0 ),
    ( sinT, cosT, 0 ),
    ( 0, 0, 1 ) ).

(** [vec.size] decides the branch; [vec[:-1]] is [removelast vec] and
    [vec[-1]] is [last vec]. *)
Definition apply_to_vector (mat : Matrix33) (vec : list R) : result (list R) :=
  if (length vec =? 3)%nat then
    Ok (np.dot vec mat)
  else if (length vec =? 4)%nat then
    (* convert to vec3 and undo w component *)
    let vec3 := map (fun c => c / List.last vec 0) (List.removelast vec) in
    let vec3 := np.dot vec3 mat in
    (* convert back to vec4 *)
    Ok [nth 0 vec3 0; nth 1 vec3 0; nth 2 vec3 0; 1]
  else
    Raise (ValueError "Vector size unsupported").

Definition multiply (m1 m2 : Matrix33) : Matrix33 :=
  np.matmul m1 m2.

Definition inverse (mat : Matrix33) : result Matrix33 :=
  np.linalg_inv mat.

(** The binding [vector3] is made only when the norm of [direction] is
    not close to 1, and nothing reads it: the entries are built from
    [direction] itself. *)
Definition create_direction_scale (direction : Vec3) (scale : R) : Matrix33 :=
  let vector3 : option Vec3 :=
    if negb (np.isclose (np.norm direction) 1)
    then Some (vector.normalise direction)
    else None in
  let '(direction_0, direction_1, direction_2) := direction in
  let scaleMinus1 := scale - 1 in
  ( ( 1 + scaleMinus1 * (direction_0 ^ 2),
      scaleMinus1 * direction_0 * direction_1 ^ 2,
      scaleMinus1 * direction_0 * direction_2 ),
    ( scaleMinus1 * direction_0 * direction_1,
      1 + scaleMinus1 * direction_1,
      scaleMinus1 * direction_1 * direction_2 ),
    ( scaleMinus1 * direction_0 * direction_2,
      scaleMinus1 * direction_1 * direction_2,
      1 + scaleMinus1 * direction_2 ^ 2 ) ).

End matrix33.

(** ** [pyrr/ray.py] *)

Module ray.

(** A ray: an array of shape (2, 3), origin first, direction second. *)
Definition Ray : Type := Vec3 * Vec3.

Module index.
(** The index of the origin vector within the ray *)
Definition origin : nat := 0.
(** The index of the direction vector within the ray *)
Definition direction : nat := 1.
End index.

Definition sub (a b : Vec3) : Vec3 :=
  let '(a0, a1, a2) := a in
  let '(b0, b1, b2) := b in
  (a0 - b0, a1 - b1, a2 - b2).

(** [create] and [create_from_line] read their arguments and build a new
    array from them. *)
Definition create (start direction : Vec3) : Ray :=
  ( start,
    vector.normalise direction ).

Definition create_from_line (line : Vec3 * Vec3) : Ray :=
  let '(line_0, line_1) := line in
  (* direction = vend - vstart *)
  ( line_0,
    vector.normalise (sub line_1 line_0) ).

(** *** Arrays in the store

    [invert] copies its argument and updates the copy in place, [start]
    and [direction] copy a row.  Arrays are therefore objects of a store;
    a variable of the source holds a location.  An array is a scalar
    (shape ()) or a sequence of arrays of one shape. *)

#[warnings="-register-all"] Inductive ndarray : Type :=
  | Scalar (x : R)
  | Arr (items : list ndarray).

Definition loc : Type := nat.

Definition of_vec3 (v : Vec3) : ndarray :=
  let '(x, y, z) := v in Arr [Scalar x; Scalar y; Scalar z].

Definition of_ray (r : Ray) : ndarray :=
  let '(o, d) := r in Arr [of_vec3 o; of_vec3 d].

(** [a * k], every scalar of [a] multiplied by [k]. *)
Fixpoint scale (k : R) (a : ndarray) : ndarray :=
  match a with
  | Scalar x => Scalar (x * k)
  | Arr items => Arr (map (scale k) items)
  end.

(** [a[i]]. *)
Definition getitem (a : ndarray) (i : nat) : result ndarray :=
  match a with
  | Scalar _ => Raise (IndexError "too many indices for array")
  | Arr items =>
      match items !! i with
      | Some x => Ok x
      | None => Raise (IndexError "index out of bounds")
      end
  end.

(** [a[i] = x], on an array whose index [i] exists. *)
Definition setitem (a : ndarray) (i : nat) (x : ndarray) : ndarray :=
  match a with
  | Scalar _ => a
  | Arr items => Arr (<[i := x]> items)
  end.

(** The outcome of a computation on the store: a value and the new
    store, an exception, or no behaviour at all ([Stuck]) when a location
    that holds no array is dereferenced, which no Python program does. *)
Inductive outcome (A : Type) : Type :=
  | Done (a : A) (h : gmap loc ndarray)
  | Throw (e : exn)
  | Stuck.
Arguments Done {A} a h.
Arguments Throw {A} e.
Arguments Stuck {A}.

Definition M (A : Type) : Type := gmap loc ndarray -> outcome A.

Definition ret {A : Type} (a : A) : M A :=
  fun h => Done a h.

Definition bind {A B : Type} (c : M A) (k : A -> M B) : M B :=
  fun h =>
    match c h with
    | Done a h' => k a h'
    | Throw e => Throw e
    | Stuck => Stuck
    end.

Notation "x <- c ;; k" := (bind c (fun x => k))
  (at level 100, c at next level, right associativity).
Notation "c ;;; k" := (bind c (fun _ => k))
  (at level 100, right associativity).

Definition lift {A : Type} (r : result A) : M A :=
  fun h => match r with Ok a => Done a h | Raise e => Throw e end.

Definition load (l : loc) : M ndarray :=
  fun h => match h !! l with Some a => Done a h | None => Stuck end.

Definition store (l : loc) (a : ndarray) : M unit :=
  fun h => Done tt (<[l := a]> h).

(** A new array object: a location the store does not use yet. *)
Definition alloc (a : ndarray) : M loc :=
  fun h => let l := fresh (dom h) in Done l (<[l := a]> h).

(** [a.copy()]. *)
Definition copy (l : loc) : M loc :=
  a <- load l ;;
  alloc a.

(** [a[i] *= k]: the item is a view of [a], so [a] itself changes. *)
Definition imul_item (l : loc) (i : nat) (k : R) : M unit :=
  a <- load l ;;
  x <- lift (getitem a i) ;;
  store l (setitem a i (scale k x)).

(** [a[i].copy()]. *)
Definition copy_item (l : loc) (i : nat) : M loc :=
  a <- load l ;;
  x <- lift (getitem a i) ;;
  alloc x.

(** The decorator [all_parameters_as_numpy_arrays] is not part of the
    sources; [r] is the array the function body receives. *)
Definition invert (r : loc) : M loc :=
  r2 <- copy r ;;
  imul_item r2 1 (-1) ;;;
  ret r2.

Definition start (ray : loc) : M loc :=
  copy_item ray 0.

Definition direction (ray : loc) : M loc :=
  copy_item ray 1.

End ray.

(** ** Reference definitions

    What the specification compares the code with. *)

(** Directional scaling of [v] along the unit vector [d] by [k]: the
    component of [v] along [d] is multiplied by [k], the component
    orthogonal to [d] is kept, [k (v.d) d + (v - (v.d) d)]. *)
Definition directional_scaling (d : Vec3) (k : R) (v : Vec3) : list R :=
  let '(d0, d1, d2) := d in
  let '(v0, v1, v2) := v in
  let vd := v0 * d0 + v1 * d1 + v2 * d2 in
  [ k * vd * d0 + (v0 - vd * d0);
    k * vd * d1 + (v1 - vd * d1);
    k * vd * d2 + (v2 - vd * d2) ].

(** The entries [create_direction_scale] writes, as a function of the
    vector [n] whose components are put into them. *)
Definition direction_scale_entries (n : Vec3) (k : R) : Matrix33 :=
  let '(nx, ny, nz) := n in
  ( ( 1 + (k - 1) * nx ^ 2, (k - 1) * nx * ny ^ 2, (k - 1) * nx * nz ),
    ( (k - 1) * nx * ny, 1 + (k - 1) * ny, (k - 1) * ny * nz ),
    ( (k - 1) * nx * nz, (k - 1) * ny * nz, 1 + (k - 1) * nz ^ 2 ) ).

(** The component-wise negation of a vector. *)
Definition negated (v : Vec3) : Vec3 :=
  let '(x, y, z) := v in (- x, - y, - z).

(** From the store [h] to the store [h']: the location [l], unused in
    [h], holds the array [a], and every other location holds what it
    held. *)
Definition new_array (h : gmap ray.loc ray.ndarray) (l : ray.loc)
    (a : ray.ndarray) (h' : gmap ray.loc ray.ndarray) : Prop :=
  h !! l = None /\
  h' !! l = Some a /\
  forall l' : ray.loc, l' <> l -> h' !! l' = h !! l'.

(** ** Definitions for the further properties *)

(** One call after another, the second on the value of the first; an
    exception of the first ends the sequence. *)
Definition and_then {A B : Type} (r : result A) (f : A -> result B)
    : result B :=
  match r with
  | Ok a => f a
  | Raise e => Raise e
  end.

#[export] Instance List_Array : Array (list R) :=
  fun l => l.

(** [a * u + b * v], entry by entry. *)
Definition lincomb (a : R) (u : list R) (b : R) (v : list R) : list R :=
  map (fun p => a * fst p + b * snd p) (combine u v).

(** The rows of [m] are unit vectors orthogonal to each other, and so are
    its columns. *)
Definition orthonormal (m : Matrix33) : Prop :=
  np.matmul m (np.transpose m) = np.identity3 /\
  np.matmul (np.transpose m) m = np.identity3.

(** [k * v] and [k * q]. *)
Definition scaled (k : R) (v : Vec3) : Vec3 :=
  let '(x, y, z) := v in (k * x, k * y, k * z).

Definition scaled_quat (k : R) (q : Quaternion) : Quaternion :=
  let '(x, y, z, w) := q in (k * x, k * y, k * z, k * w).

(** [a * b], entry by entry. *)
Definition hadamard (a b : Vec3) : Vec3 :=
  let '(a0, a1, a2) := a in
  let '(b0, b1, b2) := b in
  (a0 * b0, a1 * b1, a2 * b2).

(** The 4x4 matrix with the 3x3 part [m], zeros in the first three rows
    of the fourth column, and the fourth row [t]. *)
Definition affine44 (m : Matrix33) (t : Vec4) : Matrix44 :=
  let '((m00, m01, m02), (m10, m11, m12), (m20, m21, m22)) := m in
  ((m00, m01, m02, 0), (m10, m11, m12, 0), (m20, m21, m22, 0), t).

(** * Properties *)

Import matrix33.

(** ** Tactics *)

(** Equality of two arrays of scalars, entry by entry. *)
Ltac scalars :=
  repeat (f_equal; try (simpl; ring)).

(** The nine entries of a matrix. *)
Ltac destruct_mat m :=
  let a := fresh "a" in let b := fresh "b" in let c := fresh "c" in
  let d := fresh "d" in let e := fresh "e" in let f := fresh "f" in
  let g := fresh "g" in let h := fresh "h" in let i := fresh "i" in
  destruct m as [[[[a b] c] [[d e] f]] [[g h] i]].

(** ** Helpers on the numeric backend *)

Lemma isclose_one : np.isclose 1 1 = true.
Proof.
  unfold np.isclose, np.atol, np.rtol.
  destruct (Rle_dec _ _) as [_ | Hn]; [reflexivity | exfalso; apply Hn].
  replace (1 - 1) with 0 by ring.
  rewrite Rabs_R0, Rabs_R1.
  assert (0 < / 10 ^ 8) by (apply Rinv_0_lt_compat; lra).
  assert (0 < / 10 ^ 5) by (apply Rinv_0_lt_compat; lra).
  lra.
Qed.

Lemma sum_sq_nonneg (l : list R) : 0 <= np.sum_sq l.
Proof.
  induction l as [| x l IH]; simpl; [lra |].
  pose proof (pow2_ge_0 x). lra.
Qed.

Lemma norm_vec3 (x y z : R) :
  np.norm ((x, y, z) : Vec3) = sqrt (x ^ 2 + y ^ 2 + z ^ 2).
Proof.
  unfold np.norm, ravel, Vec3_Array, np.sum_sq; simpl.
  f_equal; ring.
Qed.

Lemma norm_quat (x y z w : R) :
  np.norm ((x, y, z, w) : Quaternion)
  = sqrt (x ^ 2 + y ^ 2 + z ^ 2 + w ^ 2).
Proof.
  unfold np.norm, ravel, Quaternion_Array, np.sum_sq; simpl.
  f_equal; ring.
Qed.

(** ** [apply_to_vector] *)

Lemma apply_to_vector_3 (mat : Matrix33) (a b c : R) :
  apply_to_vector mat [a; b; c] = Ok (np.dot [a; b; c] mat).
Proof. reflexivity. Qed.

Lemma apply_to_vector_4 (mat : Matrix33) (a b c w : R) :
  apply_to_vector mat [a; b; c; w]
  = Ok (np.dot [a / w; b / w; c / w] mat ++ [1]).
Proof.
  destruct_mat mat. reflexivity.
Qed.

(** ** [create_direction_scale] *)

Lemma create_direction_scale_unfold (direction : Vec3) (scale : R) :
  create_direction_scale direction scale
  = direction_scale_entries direction scale.
Proof.
  destruct direction as [[d0 d1] d2].
  unfold create_direction_scale, direction_scale_entries.
  reflexivity.
Qed.

Lemma norm_2_0_0 : np.norm ((2, 0, 0) : Vec3) = 2.
Proof.
  rewrite norm_vec3.
  replace (2 ^ 2 + 0 ^ 2 + 0 ^ 2) with (2 * 2) by ring.
  apply sqrt_square; lra.
Qed.

(** C4. For every direction [d] and every scale [k], whatever the norm of
    [d], the matrix of [create_direction_scale d k] has the closed-form
    entries evaluated on the components of [d] as given: the normalised
    vector bound in the branch taken when the norm is not close to 1 is
    not used.  For [d = (2, 0, 0)], whose norm 2 is not close to 1, the
    result is not the one the normalised direction would give. *)
Theorem create_direction_scale_uses_raw_direction :
  (forall (d : Vec3) (k : R),
      create_direction_scale d k = direction_scale_entries d k) /\
  np.isclose (np.norm ((2, 0, 0) : Vec3)) 1 = false /\
  create_direction_scale (2, 0, 0) 0 = ((-3, 0, 0), (0, 1, 0), (0, 0, 1)) /\
  direction_scale_entries (vector.normalise (2, 0, 0)) 0
  = ((0, 0, 0), (0, 1, 0), (0, 0, 1)).
Proof.
  split; [exact create_direction_scale_unfold |].
  split; [| split].
  - rewrite norm_2_0_0. unfold np.isclose, np.atol, np.rtol.
    destruct (Rle_dec _ _) as [Hle | _]; [exfalso | reflexivity].
    replace (2 - 1) with 1 in Hle by ring.
    rewrite Rabs_R1 in Hle.
    assert (/ 10 ^ 8 <= / 10) by (apply Rinv_le_contravar; lra).
    assert (/ 10 ^ 5 <= / 10) by (apply Rinv_le_contravar; lra).
    lra.
  - rewrite create_direction_scale_unfold.
    unfold direction_scale_entries. scalars.
  - unfold vector.normalise. rewrite norm_2_0_0.
    unfold direction_scale_entries. repeat (f_equal; try field).
Qed.

(** C5. With the unit direction (1, 0, 0) and scale factor 0, the vector
    (5, 2, 3) is sent to (0, 2, 3). *)
Theorem create_direction_scale_flattens_x :
  apply_to_vector (create_direction_scale (1, 0, 0) 0) [5; 2; 3]
  = Ok [0; 2; 3].
Proof.
  rewrite create_direction_scale_unfold.
  unfold direction_scale_entries.
  rewrite apply_to_vector_3. unfold np.dot; simpl.
  scalars.
Qed.

(** C1, evaluated where it fails.  The direction (0, -1, 0) has norm 1;
    with scale factor 0 the code sends (0, 1, 0), which lies along the
    direction, to (0, 2, 0), where directional scaling by 0 gives
    (0, 0, 0). *)
Theorem create_direction_scale_negative_axis :
  np.norm ((0, -1, 0) : Vec3) = 1 /\
  apply_to_vector (create_direction_scale (0, -1, 0) 0) [0; 1; 0]
  = Ok [0; 2; 0] /\
  directional_scaling (0, -1, 0) 0 (0, 1, 0) = [0; 0; 0] /\
  apply_to_vector (create_direction_scale (0, -1, 0) 0) [0; 1; 0]
  <> Ok (directional_scaling (0, -1, 0) 0 (0, 1, 0)).
Proof.
  assert (Hcode :
    apply_to_vector (create_direction_scale (0, -1, 0) 0) [0; 1; 0]
    = Ok [0; 2; 0]).
  { rewrite create_direction_scale_unfold.
    unfold direction_scale_entries.
    rewrite apply_to_vector_3. unfold np.dot; simpl. scalars. }
  assert (Hspec : directional_scaling (0, -1, 0) 0 (0, 1, 0) = [0; 0; 0]).
  { unfold directional_scaling. scalars. }
  repeat split; try assumption.
  - rewrite norm_vec3.
    replace (0 ^ 2 + (-1) ^ 2 + 0 ^ 2) with 1 by ring.
    apply sqrt_1.
  - rewrite Hcode, Hspec. intros H. inversion H. lra.
Qed.

(** The entry in row 1, column 2: for the unit direction (3/5, 4/5, 0)
    and scale factor 0 the code sends (1, 0, 0) to
    (16/25, -48/125, 0), where directional scaling gives
    (16/25, -12/25, 0). *)
Lemma create_direction_scale_row1_col2 :
  np.norm ((3 / 5, 4 / 5, 0) : Vec3) = 1 /\
  apply_to_vector (create_direction_scale (3 / 5, 4 / 5, 0) 0) [1; 0; 0]
  = Ok [16 / 25; - (48 / 125); 0] /\
  directional_scaling (3 / 5, 4 / 5, 0) 0 (1, 0, 0)
  = [16 / 25; - (12 / 25); 0].
Proof.
  split; [| split].
  - rewrite norm_vec3.
    replace ((3 / 5) ^ 2 + (4 / 5) ^ 2 + 0 ^ 2) with 1 by field.
    apply sqrt_1.
  - rewrite create_direction_scale_unfold.
    unfold direction_scale_entries.
    rewrite apply_to_vector_3. unfold np.dot; simpl.
    repeat (f_equal; try field).
  - unfold directional_scaling. repeat (f_equal; try field).
Qed.

(** ** Identity and scale *)

Lemma multiply_identity_l (m : Matrix33) : multiply create_identity m = m.
Proof.
  destruct_mat m. unfold multiply, create_identity, np.matmul, np.identity3.
  scalars.
Qed.

Lemma multiply_identity_r (m : Matrix33) : multiply m create_identity = m.
Proof.
  destruct_mat m. unfold multiply, create_identity, np.matmul, np.identity3.
  scalars.
Qed.

Lemma create_from_scale_apply :
  apply_to_vector (create_from_scale (2, 3, 4)) [1; 1; 1] = Ok [2; 3; 4].
Proof.
  rewrite apply_to_vector_3.
  unfold create_from_scale, np.diagflat, np.dot; simpl. scalars.
Qed.

(** ** Quaternions *)

Lemma create_from_quaternion_unit (x y z w : R) :
  np.norm ((x, y, z, w) : Quaternion) = 1 ->
  create_from_quaternion (x, y, z, w)
  = ( ( 1 - 2 * (y ^ 2 + z ^ 2), 2 * (x * y + w * z), 2 * (x * z - w * y) ),
      ( 2 * (x * y - w * z), 1 - 2 * (x ^ 2 + z ^ 2), 2 * (y * z + w * x) ),
      ( 2 * (x * z + w * y), 2 * (y * z - w * x), 1 - 2 * (x ^ 2 + y ^ 2) ) ).
Proof.
  intros Hn. unfold create_from_quaternion.
  rewrite Hn, isclose_one. reflexivity.
Qed.

(** For a unit quaternion the two matrices agree up to transposition
    exactly when [w * x = 0]: row 3, column 2 of the inverse conversion
    holds [2 (y z - w x)] where the transpose holds [2 (y z + w x)]. *)
Lemma transpose_inverse_of_quaternion_iff (x y z w : R) :
  np.norm ((x, y, z, w) : Quaternion) = 1 ->
  np.transpose (create_from_quaternion (x, y, z, w))
  = create_from_inverse_of_quaternion (x, y, z, w)
  <-> w * x = 0.
Proof.
  intros Hn. rewrite (create_from_quaternion_unit _ _ _ _ Hn).
  unfold np.transpose, create_from_inverse_of_quaternion.
  split.
  - intros H. inversion H. lra.
  - intros H. repeat (f_equal; try lra).
Qed.

Lemma norm_3_0_0_4 : np.norm ((3 / 5, 0, 0, 4 / 5) : Quaternion) = 1.
Proof.
  rewrite norm_quat.
  replace ((3 / 5) ^ 2 + 0 ^ 2 + 0 ^ 2 + (4 / 5) ^ 2) with 1 by field.
  apply sqrt_1.
Qed.

(** C2, evaluated where it fails.  The quaternion (3/5, 0, 0, 4/5) has
    norm 1; the transpose of its matrix has 24/25 in row 3, column 2,
    the matrix of the inverse conversion has -24/25 there, so the two
    matrices differ. *)
Theorem inverse_of_quaternion_row3_col2 :
  np.norm ((3 / 5, 0, 0, 4 / 5) : Quaternion) = 1 /\
  np.transpose (create_from_quaternion (3 / 5, 0, 0, 4 / 5))
  = ((1, 0, 0), (0, 7 / 25, - (24 / 25)), (0, 24 / 25, 7 / 25)) /\
  create_from_inverse_of_quaternion (3 / 5, 0, 0, 4 / 5)
  = ((1, 0, 0), (0, 7 / 25, - (24 / 25)), (0, - (24 / 25), 7 / 25)) /\
  np.transpose (create_from_quaternion (3 / 5, 0, 0, 4 / 5))
  <> create_from_inverse_of_quaternion (3 / 5, 0, 0, 4 / 5).
Proof.
  split; [exact norm_3_0_0_4 |].
  split; [| split].
  - rewrite (create_from_quaternion_unit _ _ _ _ norm_3_0_0_4).
    unfold np.transpose. repeat (f_equal; try field).
  - unfold create_from_inverse_of_quaternion. repeat (f_equal; try field).
  - intros H.
    apply (transpose_inverse_of_quaternion_iff _ _ _ _ norm_3_0_0_4) in H.
    lra.
Qed.

(** ** Axis rotations *)

Lemma x_rotation_apply (theta : R) :
  apply_to_vector (create_from_x_rotation theta) [0; 1; 0]
  = Ok [0; cos theta; - sin theta].
Proof.
  rewrite apply_to_vector_3.
  unfold create_from_x_rotation, np.dot; simpl; scalars.
Qed.

Lemma y_rotation_apply (theta : R) :
  apply_to_vector (create_from_y_rotation theta) [0; 0; 1]
  = Ok [- sin theta; 0; cos theta].
Proof.
  rewrite apply_to_vector_3.
  unfold create_from_y_rotation, np.dot; simpl; scalars.
Qed.

Lemma z_rotation_apply (theta : R) :
  apply_to_vector (create_from_z_rotation theta) [1; 0; 0]
  = Ok [cos theta; - sin theta; 0].
Proof.
  rewrite apply_to_vector_3.
  unfold create_from_z_rotation, np.dot; simpl; scalars.
Qed.

(** C3, as the code has it.  For every angle [theta], the rotation about
    X sends (0, 1, 0) to (0, cos theta, - sin theta), the rotation about
    Y sends (0, 0, 1) to (- sin theta, 0, cos theta) and the rotation
    about Z sends (1, 0, 0) to (cos theta, - sin theta, 0). *)
Theorem axis_rotations_apply (theta : R) :
  apply_to_vector (create_from_x_rotation theta) [0; 1; 0]
  = Ok [0; cos theta; - sin theta] /\
  apply_to_vector (create_from_y_rotation theta) [0; 0; 1]
  = Ok [- sin theta; 0; cos theta] /\
  apply_to_vector (create_from_z_rotation theta) [1; 0; 0]
  = Ok [cos theta; - sin theta; 0].
Proof.
  split; [apply x_rotation_apply |].
  split; [apply y_rotation_apply | apply z_rotation_apply].
Qed.

(** C3 as stated fails at [theta = PI / 2]: the rotation about X sends
    (0, 1, 0) to (0, 0, -1), not to (0, cos theta, sin theta)
    = (0, 0, 1). *)
Lemma axis_rotations_claimed_sign_fails :
  ~ (apply_to_vector (create_from_x_rotation (PI / 2)) [0; 1; 0]
     = Ok [0; cos (PI / 2); sin (PI / 2)] /\
     apply_to_vector (create_from_y_rotation (PI / 2)) [0; 0; 1]
     = Ok [sin (PI / 2); 0; cos (PI / 2)] /\
     apply_to_vector (create_from_z_rotation (PI / 2)) [1; 0; 0]
     = Ok [cos (PI / 2); sin (PI / 2); 0]).
Proof.
  intros [Hx _].
  rewrite x_rotation_apply in Hx. inversion Hx as [Hs].
  rewrite sin_PI2 in Hs. lra.
Qed.

(** ** Vectors of four components and of other sizes *)

(** C6. For every matrix [M] and every vector [v] of four components
    whose fourth component is not zero, [apply_to_vector M v] returns
    four components: the first three are the vector
    [(v[0]/v[3], v[1]/v[3], v[2]/v[3])] times [M], the fourth is 1. *)
Theorem apply_to_vector_homogeneous (M : Matrix33) (v : list R) :
  length v = 4%nat ->
  nth 3 v 0 <> 0 ->
  exists r0 r1 r2 : R,
    apply_to_vector M v = Ok [r0; r1; r2; 1] /\
    [r0; r1; r2]
    = np.dot [nth 0 v 0 / nth 3 v 0; nth 1 v 0 / nth 3 v 0;
              nth 2 v 0 / nth 3 v 0] M.
Proof.
  intros Hlen _.
  destruct v as [| a [| b [| c [| w [| ? ?]]]]]; try discriminate Hlen.
  destruct_mat M.
  do 3 eexists. split; reflexivity.
Qed.

Lemma apply_to_vector_homogeneous_witness :
  exists r0 r1 r2 : R,
    apply_to_vector np.identity3 [2; 4; 6; 2] = Ok [r0; r1; r2; 1] /\
    [r0; r1; r2] = np.dot [2 / 2; 4 / 2; 6 / 2] np.identity3.
Proof.
  apply (apply_to_vector_homogeneous np.identity3 [2; 4; 6; 2]).
  - reflexivity.
  - simpl. lra.
Defined.

(** C7. [apply_to_vector mat vec] raises exactly when [vec] has neither
    three nor four components, the error being the invalid-dimension
    one; it raises for every vector of two components; with three or
    four components it returns a vector. *)
Theorem apply_to_vector_raises_iff (mat : Matrix33) (vec : list R) :
  ((exists e, apply_to_vector mat vec = Raise e)
   <-> length vec <> 3%nat /\ length vec <> 4%nat) /\
  (forall e, apply_to_vector mat vec = Raise e ->
             e = ValueError "Vector size unsupported") /\
  (forall a b : R,
      apply_to_vector mat [a; b]
      = Raise (ValueError "Vector size unsupported")) /\
  (length vec = 3%nat \/ length vec = 4%nat ->
   exists r, apply_to_vector mat vec = Ok r).
Proof.
  assert (Hcases :
    (length vec = 3%nat /\ exists r, apply_to_vector mat vec = Ok r) \/
    (length vec = 4%nat /\ exists r, apply_to_vector mat vec = Ok r) \/
    (length vec <> 3%nat /\ length vec <> 4%nat /\
     apply_to_vector mat vec = Raise (ValueError "Vector size unsupported"))).
  { unfold apply_to_vector.
    destruct (Nat.eqb_spec (length vec) 3) as [H3 | H3];
      [left; split; [assumption | eexists; reflexivity] |].
    destruct (Nat.eqb_spec (length vec) 4) as [H4 | H4];
      [right; left; split; [assumption | eexists; reflexivity] |].
    right; right. repeat split; assumption. }
  split; [split |]; [| | split; [| split]].
  - intros [e He].
    destruct Hcases as [[_ [r Hr]] | [[_ [r Hr]] | [H3 [H4 _]]]];
      [congruence | congruence | split; assumption].
  - intros [H3 H4].
    destruct Hcases as [[H _] | [[H _] | [_ [_ Hr]]]];
      [contradiction | contradiction | eexists; exact Hr].
  - intros e He.
    destruct Hcases as [[_ [r Hr]] | [[_ [r Hr]] | [_ [_ Hr]]]];
      congruence.
  - intros a b. reflexivity.
  - intros [H | H];
      destruct Hcases as [[_ Hr] | [[_ Hr] | [H3 [H4 _]]]];
      try assumption; contradiction.
Qed.

(** ** [inverse] *)

Lemma det_matmul (m1 m2 : Matrix33) :
  np.det (np.matmul m1 m2) = np.det m1 * np.det m2.
Proof.
  destruct_mat m1; destruct_mat m2.
  unfold np.det, np.matmul. ring.
Qed.

Lemma det_identity3 : np.det np.identity3 = 1.
Proof. unfold np.det, np.identity3. ring. Qed.

Lemma matmul_inv_r (m : Matrix33) :
  np.det m <> 0 ->
  np.matmul m (np.scale_mat (/ np.det m) (np.adjugate m)) = np.identity3.
Proof.
  destruct_mat m. unfold np.det, np.matmul, np.scale_mat, np.adjugate,
    np.identity3.
  intros Hd. repeat (f_equal; try (field; exact Hd)).
Qed.

Lemma matmul_inv_l (m : Matrix33) :
  np.det m <> 0 ->
  np.matmul (np.scale_mat (/ np.det m) (np.adjugate m)) m = np.identity3.
Proof.
  destruct_mat m. unfold np.det, np.matmul, np.scale_mat, np.adjugate,
    np.identity3.
  intros Hd. repeat (f_equal; try (field; exact Hd)).
Qed.

Lemma inverse_cases (mat : Matrix33) :
  (np.det mat = 0 /\ inverse mat = Raise (LinAlgError "Singular matrix")) \/
  (np.det mat <> 0 /\
   inverse mat = Ok (np.scale_mat (/ np.det mat) (np.adjugate mat))).
Proof.
  unfold inverse, np.linalg_inv.
  destruct (Req_dec_T (np.det mat) 0) as [Hz | Hnz]; [left | right];
    split; auto.
Qed.

(** A matrix of determinant zero has no inverse, and only such a
    matrix. *)
Lemma det_zero_iff_no_inverse (mat : Matrix33) :
  np.det mat = 0 <-> ~ (exists m', multiply mat m' = create_identity).
Proof.
  unfold multiply, create_identity. split.
  - intros Hz [m' Hm'].
    apply (f_equal np.det) in Hm'.
    rewrite det_matmul, det_identity3, Hz in Hm'. lra.
  - intros Hno. destruct (Req_dec (np.det mat) 0) as [Hz | Hnz]; [exact Hz |].
    exfalso. apply Hno. eexists. apply matmul_inv_r. exact Hnz.
Qed.

(** C8. [inverse mat] raises exactly when the determinant of [mat] is
    zero, that is when [mat] has no inverse, and the error is the
    singular-matrix one of the backend; it raises for the all-zero
    matrix; when the determinant is not zero it returns a matrix that is
    the inverse of [mat] on both sides. *)
Theorem inverse_raises_iff_singular (mat : Matrix33) :
  ((exists e, inverse mat = Raise e) <-> np.det mat = 0) /\
  (forall e, inverse mat = Raise e -> e = LinAlgError "Singular matrix") /\
  (np.det mat = 0 <-> ~ (exists m', multiply mat m' = create_identity)) /\
  inverse ((0, 0, 0), (0, 0, 0), (0, 0, 0))
  = Raise (LinAlgError "Singular matrix") /\
  (np.det mat <> 0 ->
   exists m', inverse mat = Ok m' /\
              multiply mat m' = create_identity /\
              multiply m' mat = create_identity).
Proof.
  split; [split |]; [| | split; [| split; [| split]]].
  - intros [e He].
    destruct (inverse_cases mat) as [[Hz _] | [_ Hok]];
      [exact Hz | congruence].
  - intros Hz.
    destruct (inverse_cases mat) as [[_ Hr] | [Hnz _]];
      [eexists; exact Hr | contradiction].
  - intros e He.
    destruct (inverse_cases mat) as [[_ Hr] | [_ Hok]]; congruence.
  - apply det_zero_iff_no_inverse.
  - destruct (inverse_cases ((0, 0, 0), (0, 0, 0), (0, 0, 0)))
      as [[_ Hr] | [Hnz _]]; [exact Hr |].
    exfalso. apply Hnz. unfold np.det. ring.
  - intros Hnz.
    destruct (inverse_cases mat) as [[Hz _] | [_ Hok]]; [contradiction |].
    eexists. split; [exact Hok |].
    unfold multiply, create_identity.
    split; [apply matmul_inv_r | apply matmul_inv_l]; exact Hnz.
Qed.

Lemma inverse_raises_iff_singular_witness :
  exists m', inverse ((2, 0, 0), (0, 1, 0), (0, 0, 1)) = Ok m' /\
             multiply ((2, 0, 0), (0, 1, 0), (0, 0, 1)) m' = create_identity /\
             multiply m' ((2, 0, 0), (0, 1, 0), (0, 0, 1)) = create_identity.
Proof.
  apply (inverse_raises_iff_singular ((2, 0, 0), (0, 1, 0), (0, 0, 1))).
  unfold np.det. lra.
Defined.

(** ** Rays *)

Lemma norm_normalise (v : Vec3) :
  np.norm v <> 0 -> np.norm (vector.normalise v) = 1.
Proof.
  destruct v as [[x y] z]. unfold vector.normalise.
  rewrite !norm_vec3. set (s := x ^ 2 + y ^ 2 + z ^ 2). intros Hn.
  assert (Hs : 0 <= s).
  { unfold s. pose proof (pow2_ge_0 x). pose proof (pow2_ge_0 y).
    pose proof (pow2_ge_0 z). lra. }
  replace ((x / sqrt s) ^ 2 + (y / sqrt s) ^ 2 + (z / sqrt s) ^ 2)
    with (s / (sqrt s * sqrt s)) by (unfold s; field; exact Hn).
  rewrite (sqrt_sqrt s Hs).
  replace (s / s) with 1; [apply sqrt_1 |].
  field. intros Hz. apply Hn. rewrite Hz. apply sqrt_0.
Qed.

Lemma pow2_eq_0 (x : R) : x ^ 2 = 0 -> x = 0.
Proof.
  intros H. replace (x ^ 2) with (x * x) in H by ring.
  destruct (Rmult_integral _ _ H); assumption.
Qed.

Lemma norm_sub_nonzero (a b : Vec3) :
  a <> b -> np.norm (ray.sub b a) <> 0.
Proof.
  destruct a as [[a0 a1] a2], b as [[b0 b1] b2]. unfold ray.sub.
  rewrite norm_vec3. intros Hne Hz.
  pose proof (pow2_ge_0 (b0 - a0)) as H0.
  pose proof (pow2_ge_0 (b1 - a1)) as H1.
  pose proof (pow2_ge_0 (b2 - a2)) as H2.
  apply sqrt_eq_0 in Hz; [| lra].
  apply Hne.
  assert (E0 : b0 - a0 = 0) by (apply pow2_eq_0; lra).
  assert (E1 : b1 - a1 = 0) by (apply pow2_eq_0; lra).
  assert (E2 : b2 - a2 = 0) by (apply pow2_eq_0; lra).
  repeat f_equal; lra.
Qed.

(** C9. For every start point and every direction of nonzero norm,
    [ray.create] returns the start point paired with the normalised
    direction, whose norm is 1; for every line whose two end points
    differ, [ray.create_from_line] returns the first end point paired
    with the normalised difference of the end points, whose norm is
    1. *)
Theorem ray_constructors_unit_direction
    (start direction line_0 line_1 : Vec3) :
  np.norm direction <> 0 ->
  line_0 <> line_1 ->
  (ray.create start direction = (start, vector.normalise direction) /\
   np.norm (snd (ray.create start direction)) = 1) /\
  (ray.create_from_line (line_0, line_1)
   = (line_0, vector.normalise (ray.sub line_1 line_0)) /\
   np.norm (snd (ray.create_from_line (line_0, line_1))) = 1).
Proof.
  intros Hd Hl. unfold ray.create, ray.create_from_line; simpl.
  repeat split.
  - apply norm_normalise, Hd.
  - apply norm_normalise, norm_sub_nonzero, Hl.
Qed.

Lemma ray_constructors_unit_direction_witness :
  (ray.create (0, 0, 0) (2, 0, 0) = ((0, 0, 0), vector.normalise (2, 0, 0)) /\
   np.norm (snd (ray.create (0, 0, 0) (2, 0, 0))) = 1) /\
  (ray.create_from_line ((1, 1, 1), (1, 1, 3))
   = ((1, 1, 1), vector.normalise (ray.sub (1, 1, 3) (1, 1, 1))) /\
   np.norm (snd (ray.create_from_line ((1, 1, 1), (1, 1, 3)))) = 1).
Proof.
  apply (ray_constructors_unit_direction
           (0, 0, 0) (2, 0, 0) (1, 1, 1) (1, 1, 3)).
  - rewrite norm_2_0_0. lra.
  - intros H. inversion H. lra.
Defined.

(** *** Rays in the store *)

Lemma fresh_unused (h : gmap ray.loc ray.ndarray) :
  h !! fresh (dom h) = None.
Proof. apply not_elem_of_dom, is_fresh. Qed.

Lemma new_array_insert (h : gmap ray.loc ray.ndarray) (a : ray.ndarray) :
  new_array h (fresh (dom h)) a (<[fresh (dom h) := a]> h).
Proof.
  split; [apply fresh_unused |].
  split; [apply lookup_insert_eq |].
  intros l' Hne. apply lookup_insert_ne. congruence.
Qed.

Lemma copy_item_new_array (h : gmap ray.loc ray.ndarray) (l : ray.loc)
    (a x : ray.ndarray) (i : nat) :
  h !! l = Some a ->
  ray.getitem a i = Ok x ->
  exists s h', ray.copy_item l i h = ray.Done s h' /\ new_array h s x h'.
Proof.
  intros Hl Hx.
  unfold ray.copy_item, ray.bind, ray.load, ray.lift, ray.alloc.
  rewrite Hl, Hx.
  do 2 eexists. split; [reflexivity | apply new_array_insert].
Qed.

Lemma scale_neg1_vec3 (d : Vec3) :
  ray.scale (-1) (ray.of_vec3 d) = ray.of_vec3 (negated d).
Proof.
  destruct d as [[x y] z]. unfold ray.of_vec3, negated; simpl.
  repeat (f_equal; try ring).
Qed.

Lemma norm_negated (d : Vec3) : np.norm (negated d) = np.norm d.
Proof.
  destruct d as [[x y] z]. unfold negated.
  rewrite !norm_vec3. f_equal. ring.
Qed.

Lemma invert_new_array (h : gmap ray.loc ray.ndarray) (r : ray.loc)
    (o d : Vec3) :
  h !! r = Some (ray.of_ray (o, d)) ->
  exists r2 h',
    ray.invert r h = ray.Done r2 h' /\
    new_array h r2 (ray.of_ray (o, negated d)) h'.
Proof.
  intros Hr.
  unfold ray.invert, ray.copy, ray.imul_item, ray.bind, ray.load,
    ray.alloc, ray.lift, ray.store, ray.ret.
  rewrite Hr, lookup_insert_eq. simpl.
  rewrite scale_neg1_vec3, insert_insert_eq.
  do 2 eexists. split; [reflexivity | apply new_array_insert].
Qed.

(** C10. For a ray [r] of the store, with origin [o] and direction [d]:
    [ray.invert r] returns a new array holding the origin [o] and the
    negated direction, and leaves every array of the store, [r] itself
    among them, as it was; [ray.start r] and [ray.direction r] return new
    arrays holding [o] and [d]; the negated direction has the norm of
    [d]. *)
Theorem invert_start_direction_copy (h : gmap ray.loc ray.ndarray)
    (r : ray.loc) (o d : Vec3) :
  h !! r = Some (ray.of_ray (o, d)) ->
  (exists r2 h',
      ray.invert r h = ray.Done r2 h' /\
      new_array h r2 (ray.of_ray (o, negated d)) h' /\
      r2 <> r /\
      h' !! r = Some (ray.of_ray (o, d))) /\
  (exists s h',
      ray.start r h = ray.Done s h' /\ new_array h s (ray.of_vec3 o) h') /\
  (exists s h',
      ray.direction r h = ray.Done s h' /\
      new_array h s (ray.of_vec3 d) h') /\
  np.norm (negated d) = np.norm d.
Proof.
  intros Hr. split; [| split; [| split]].
  - destruct (invert_new_array h r o d Hr) as (r2 & h' & Hrun & Hnew).
    exists r2, h'. split; [exact Hrun |]. split; [exact Hnew |].
    destruct Hnew as (Hfresh & _ & Hframe).
    assert (Hne : r <> r2) by congruence.
    split; [congruence |]. rewrite (Hframe r Hne). exact Hr.
  - apply (copy_item_new_array h r (ray.of_ray (o, d)) _ 0 Hr). reflexivity.
  - apply (copy_item_new_array h r (ray.of_ray (o, d)) _ 1 Hr). reflexivity.
  - apply norm_negated.
Qed.

Lemma invert_start_direction_copy_witness :
  (exists r2 h',
      ray.invert 0%nat {[ 0%nat := ray.of_ray ((1, 2, 3), (0, 0, 1)) ]}
      = ray.Done r2 h' /\
      new_array {[ 0%nat := ray.of_ray ((1, 2, 3), (0, 0, 1)) ]} r2
        (ray.of_ray ((1, 2, 3), negated (0, 0, 1))) h' /\
      r2 <> 0%nat /\
      h' !! 0%nat = Some (ray.of_ray ((1, 2, 3), (0, 0, 1)))) /\
  (exists s h',
      ray.start 0%nat {[ 0%nat := ray.of_ray ((1, 2, 3), (0, 0, 1)) ]}
      = ray.Done s h' /\
      new_array {[ 0%nat := ray.of_ray ((1, 2, 3), (0, 0, 1)) ]} s
        (ray.of_vec3 (1, 2, 3)) h') /\
  (exists s h',
      ray.direction 0%nat {[ 0%nat := ray.of_ray ((1, 2, 3), (0, 0, 1)) ]}
      = ray.Done s h' /\
      new_array {[ 0%nat := ray.of_ray ((1, 2, 3), (0, 0, 1)) ]} s
        (ray.of_vec3 (0, 0, 1)) h') /\
  np.norm (negated (0, 0, 1)) = np.norm ((0, 0, 1) : Vec3).
Proof.
  apply (invert_start_direction_copy
           {[ 0%nat := ray.of_ray ((1, 2, 3), (0, 0, 1)) ]} 0%nat
           (1, 2, 3) (0, 0, 1)).
  apply lookup_singleton_eq.
Defined.

(** * Further properties *)

(** Polynomial identities over the entries, powers written as
    products. *)
Ltac poly := cbn [pow] in *; nsatz.

Ltac entries := repeat (f_equal; try poly).

(** The entries of two tuples, one goal each. *)
Ltac tuple_entries :=
  repeat match goal with
         | |- (_, _) = (_, _) => apply f_equal2
         end.

(** ** Products of matrices *)

Lemma matmul_assoc (m1 m2 m3 : Matrix33) :
  np.matmul (np.matmul m1 m2) m3 = np.matmul m1 (np.matmul m2 m3).
Proof.
  destruct_mat m1; destruct_mat m2; destruct_mat m3.
  unfold np.matmul. scalars.
Qed.

(** X1. The identity matrix is neutral for [multiply] on both sides, and
    [multiply] is associative. *)
Theorem multiply_monoid (m1 m2 m3 : Matrix33) :
  multiply create_identity m1 = m1 /\
  multiply m1 create_identity = m1 /\
  multiply (multiply m1 m2) m3 = multiply m1 (multiply m2 m3).
Proof.
  split; [apply multiply_identity_l |].
  split; [apply multiply_identity_r |].
  unfold multiply. apply matmul_assoc.
Qed.

Lemma dot_matmul (a b c : R) (m1 m2 : Matrix33) :
  np.dot [a; b; c] (np.matmul m1 m2) = np.dot (np.dot [a; b; c] m1) m2.
Proof.
  destruct_mat m1; destruct_mat m2.
  unfold np.dot, np.matmul; simpl. scalars.
Qed.

Lemma dot_length (v : list R) (m : Matrix33) :
  exists r0 r1 r2 : R, np.dot v m = [r0; r1; r2].
Proof. destruct_mat m. unfold np.dot. do 3 eexists. reflexivity. Qed.

(** X2. Applying the product [multiply m1 m2] to a vector is applying
    [m1] and then [m2] to the result, for a vector of any size: with
    three components, with four (the fourth component of the first
    result is 1), and with any other size, where both sides raise the
    same error. *)
Theorem apply_to_vector_multiply (m1 m2 : Matrix33) (vec : list R) :
  apply_to_vector (multiply m1 m2) vec
  = and_then (apply_to_vector m1 vec) (apply_to_vector m2).
Proof.
  unfold multiply.
  destruct vec as [| a [| b [| c [| w [| ? ?]]]]]; try reflexivity.
  - rewrite !apply_to_vector_3. simpl and_then.
    destruct (dot_length [a; b; c] m1) as (r0 & r1 & r2 & Hr).
    rewrite dot_matmul, Hr. reflexivity.
  - rewrite !apply_to_vector_4. simpl and_then.
    destruct (dot_length [a / w; b / w; c / w] m1) as (r0 & r1 & r2 & Hr).
    rewrite dot_matmul, Hr. simpl app.
    rewrite apply_to_vector_4.
    replace (r0 / 1) with r0 by field.
    replace (r1 / 1) with r1 by field.
    replace (r2 / 1) with r2 by field.
    reflexivity.
Qed.


(** X4. For a vector of four components with a nonzero fourth component,
    multiplying all four components by one nonzero factor does not change
    the result of [apply_to_vector]. *)
Theorem apply_to_vector_homogeneous_scale (M : Matrix33) (k a b c w : R) :
  k <> 0 ->
  w <> 0 ->
  apply_to_vector M [k * a; k * b; k * c; k * w]
  = apply_to_vector M [a; b; c; w].
Proof.
  intros Hk Hw. rewrite !apply_to_vector_4.
  replace (k * a / (k * w)) with (a / w) by (field; split; assumption).
  replace (k * b / (k * w)) with (b / w) by (field; split; assumption).
  replace (k * c / (k * w)) with (c / w) by (field; split; assumption).
  reflexivity.
Qed.

Lemma apply_to_vector_homogeneous_scale_witness :
  apply_to_vector np.identity3 [3 * 1; 3 * 2; 3 * 3; 3 * 2]
  = apply_to_vector np.identity3 [1; 2; 3; 2].
Proof.
  apply (apply_to_vector_homogeneous_scale np.identity3 3 1 2 3 2); lra.
Defined.

(** X5. On vectors of three components [apply_to_vector] is linear: the
    image of [a * u + b * v] is [a] times the image of [u] plus [b]
    times the image of [v]. *)
Theorem apply_to_vector_linear (M : Matrix33) (a b : R) (u v : list R) :
  length u = 3%nat ->
  length v = 3%nat ->
  exists ru rv : list R,
    apply_to_vector M u = Ok ru /\
    apply_to_vector M v = Ok rv /\
    apply_to_vector M (lincomb a u b v) = Ok (lincomb a ru b rv).
Proof.
  intros Hu Hv.
  destruct u as [| u0 [| u1 [| u2 [| ? ?]]]]; try discriminate Hu.
  destruct v as [| v0 [| v1 [| v2 [| ? ?]]]]; try discriminate Hv.
  do 2 eexists. split; [reflexivity |]. split; [reflexivity |].
  destruct_mat M. unfold lincomb; simpl.
  rewrite apply_to_vector_3. unfold np.dot; simpl. scalars.
Qed.

Lemma apply_to_vector_linear_witness :
  exists ru rv : list R,
    apply_to_vector np.identity3 [1; 0; 0] = Ok ru /\
    apply_to_vector np.identity3 [0; 1; 0] = Ok rv /\
    apply_to_vector np.identity3 (lincomb 2 [1; 0; 0] 3 [0; 1; 0])
    = Ok (lincomb 2 ru 3 rv).
Proof.
  apply (apply_to_vector_linear np.identity3 2 3 [1; 0; 0] [0; 1; 0]);
    reflexivity.
Defined.

(** ** Axis rotations, continued *)

Lemma sin_cos_sq (t : R) : sin t * sin t + cos t * cos t = 1.
Proof. pose proof (sin2_cos2 t) as H. unfold Rsqr in H. exact H. Qed.

Ltac unfold_rotations :=
  unfold create_from_x_rotation, create_from_y_rotation,
    create_from_z_rotation, multiply, create_identity, np.matmul,
    np.transpose, np.identity3, np.det.

(** X6. Rotations about one axis compose by adding their angles, for
    each of the three axes. *)
Theorem axis_rotations_add (a b : R) :
  multiply (create_from_x_rotation a) (create_from_x_rotation b)
  = create_from_x_rotation (a + b) /\
  multiply (create_from_y_rotation a) (create_from_y_rotation b)
  = create_from_y_rotation (a + b) /\
  multiply (create_from_z_rotation a) (create_from_z_rotation b)
  = create_from_z_rotation (a + b).
Proof.
  unfold_rotations. rewrite cos_plus, sin_plus.
  repeat split; scalars.
Qed.

Lemma x_rotation_orthonormal (t : R) : orthonormal (create_from_x_rotation t).
Proof.
  pose proof (sin_cos_sq t). unfold orthonormal. unfold_rotations.
  split; entries.
Qed.

Lemma y_rotation_orthonormal (t : R) : orthonormal (create_from_y_rotation t).
Proof.
  pose proof (sin_cos_sq t). unfold orthonormal. unfold_rotations.
  split; entries.
Qed.

Lemma z_rotation_orthonormal (t : R) : orthonormal (create_from_z_rotation t).
Proof.
  pose proof (sin_cos_sq t). unfold orthonormal. unfold_rotations.
  split; entries.
Qed.

(** X7. For every angle the three axis rotation matrices are orthonormal
    (the product with the transpose is the identity, on both sides) and
    have determinant 1. *)
Theorem axis_rotations_orthonormal (theta : R) :
  (orthonormal (create_from_x_rotation theta) /\
   np.det (create_from_x_rotation theta) = 1) /\
  (orthonormal (create_from_y_rotation theta) /\
   np.det (create_from_y_rotation theta) = 1) /\
  (orthonormal (create_from_z_rotation theta) /\
   np.det (create_from_z_rotation theta) = 1).
Proof.
  pose proof (sin_cos_sq theta) as Hsc.
  split; [| split]; split;
    try apply x_rotation_orthonormal;
    try apply y_rotation_orthonormal;
    try apply z_rotation_orthonormal;
    unfold_rotations; poly.
Qed.

(** X8. The rotation by the angle 0 is the identity matrix, and the
    rotation by the opposite angle is the transposed matrix, for each of
    the three axes. *)
Theorem axis_rotations_zero_and_opposite (theta : R) :
  (create_from_x_rotation 0 = create_identity /\
   create_from_x_rotation (- theta)
   = np.transpose (create_from_x_rotation theta)) /\
  (create_from_y_rotation 0 = create_identity /\
   create_from_y_rotation (- theta)
   = np.transpose (create_from_y_rotation theta)) /\
  (create_from_z_rotation 0 = create_identity /\
   create_from_z_rotation (- theta)
   = np.transpose (create_from_z_rotation theta)).
Proof.
  unfold_rotations. rewrite cos_0, sin_0, cos_neg, sin_neg.
  repeat split; scalars.
Qed.

Lemma orthonormal_identity3 : orthonormal np.identity3.
Proof. unfold orthonormal, np.matmul, np.transpose, np.identity3. split; scalars. Qed.

Lemma orthonormal_dot_sum_sq (m : Matrix33) (a b c : R) :
  orthonormal m ->
  np.sum_sq (np.dot [a; b; c] m) = np.sum_sq [a; b; c].
Proof.
  destruct_mat m. unfold orthonormal, np.matmul, np.transpose, np.identity3.
  intros [Hrows _]. inversion Hrows.
  unfold np.dot, np.sum_sq; simpl. poly.
Qed.

(** X9. An orthonormal matrix keeps the length of every vector of three
    components it is applied to. *)
Theorem apply_to_vector_orthonormal_norm (M : Matrix33) (v : list R) :
  orthonormal M ->
  length v = 3%nat ->
  exists r : list R,
    apply_to_vector M v = Ok r /\ np.norm r = np.norm v.
Proof.
  intros HM Hv.
  destruct v as [| a [| b [| c [| ? ?]]]]; try discriminate Hv.
  eexists. split; [apply apply_to_vector_3 |].
  unfold np.norm, ravel, List_Array.
  rewrite (orthonormal_dot_sum_sq M a b c HM). reflexivity.
Qed.

Lemma apply_to_vector_orthonormal_norm_witness :
  exists r : list R,
    apply_to_vector np.identity3 [1; 2; 3] = Ok r /\
    np.norm r = np.norm [1; 2; 3].
Proof.
  apply (apply_to_vector_orthonormal_norm np.identity3 [1; 2; 3]).
  - unfold orthonormal, np.matmul, np.transpose, np.identity3.
    split; repeat (f_equal; try lra).
  - reflexivity.
Defined.

(** ** Euler angles *)

Lemma create_from_eulers_matmul (pitch roll yaw : R) :
  create_from_eulers (pitch, roll, yaw)
  = np.matmul
      (np.matmul (create_from_y_rotation (yaw * (1 / 2)))
                 (create_from_x_rotation (pitch * (1 / 2))))
      (create_from_z_rotation (roll * (1 / 2))).
Proof.
  unfold create_from_eulers. unfold_rotations. scalars.
Qed.

(** X10. The matrix of [create_from_eulers] is the product of three axis
    rotations by half the given angles: about Y by half the yaw, then
    about X by half the pitch, then about Z by half the roll. *)
Theorem create_from_eulers_half_angles (pitch roll yaw : R) :
  create_from_eulers (pitch, roll, yaw)
  = multiply
      (multiply (create_from_y_rotation (yaw * (1 / 2)))
                (create_from_x_rotation (pitch * (1 / 2))))
      (create_from_z_rotation (roll * (1 / 2))).
Proof.
  unfold multiply. apply create_from_eulers_matmul.
Qed.

Lemma transpose_matmul (m1 m2 : Matrix33) :
  np.transpose (np.matmul m1 m2)
  = np.matmul (np.transpose m2) (np.transpose m1).
Proof.
  destruct_mat m1; destruct_mat m2. unfold np.transpose, np.matmul. scalars.
Qed.

Lemma matmul_identity3_l (m : Matrix33) : np.matmul np.identity3 m = m.
Proof. apply multiply_identity_l. Qed.

Lemma matmul_identity3_r (m : Matrix33) : np.matmul m np.identity3 = m.
Proof. apply multiply_identity_r. Qed.

Lemma orthonormal_matmul (m1 m2 : Matrix33) :
  orthonormal m1 -> orthonormal m2 -> orthonormal (np.matmul m1 m2).
Proof.
  unfold orthonormal. intros [H1 H1'] [H2 H2'].
  rewrite transpose_matmul. split.
  - rewrite matmul_assoc, <- (matmul_assoc m2), H2, matmul_identity3_l.
    exact H1.
  - rewrite matmul_assoc, <- (matmul_assoc (np.transpose m1)), H1',
      matmul_identity3_l.
    exact H2'.
Qed.

Lemma x_rotation_det (t : R) : np.det (create_from_x_rotation t) = 1.
Proof. pose proof (sin_cos_sq t). unfold_rotations. poly. Qed.

Lemma y_rotation_det (t : R) : np.det (create_from_y_rotation t) = 1.
Proof. pose proof (sin_cos_sq t). unfold_rotations. poly. Qed.

Lemma z_rotation_det (t : R) : np.det (create_from_z_rotation t) = 1.
Proof. pose proof (sin_cos_sq t). unfold_rotations. poly. Qed.

(** X11. For all angles the matrix of [create_from_eulers] is orthonormal
    and has determinant 1; for the angles (0, 0, 0) it is the identity
    matrix. *)
Theorem create_from_eulers_rotation (eulers : Vec3) :
  orthonormal (create_from_eulers eulers) /\
  np.det (create_from_eulers eulers) = 1 /\
  create_from_eulers (0, 0, 0) = create_identity.
Proof.
  destruct eulers as [[pitch roll] yaw].
  split; [| split].
  - rewrite create_from_eulers_matmul.
    repeat apply orthonormal_matmul;
      [apply y_rotation_orthonormal | apply x_rotation_orthonormal
      | apply z_rotation_orthonormal].
  - rewrite create_from_eulers_matmul, !det_matmul.
    rewrite y_rotation_det, x_rotation_det, z_rotation_det. ring.
  - unfold create_from_eulers, create_identity, np.identity3.
    replace (0 * (1 / 2)) with 0 by field.
    rewrite cos_0, sin_0. scalars.
Qed.

(** ** Scale *)

(** X12. The matrix of [create_from_scale] multiplies each component of a
    vector by the scale of its axis, and the product of two scale
    matrices is the scale matrix of the products of the scales. *)
Theorem create_from_scale_componentwise (s t : Vec3) (a b c : R) :
  apply_to_vector (create_from_scale s) [a; b; c]
  = Ok (ravel (hadamard (a, b, c) s)) /\
  multiply (create_from_scale s) (create_from_scale t)
  = create_from_scale (hadamard s t).
Proof.
  destruct s as [[sx sy] sz], t as [[tx ty] tz].
  rewrite apply_to_vector_3.
  unfold create_from_scale, multiply, np.diagflat, np.dot, np.matmul,
    hadamard, ravel, Vec3_Array; simpl.
  split; scalars.
Qed.

(** X13. [inverse] of a scale matrix, with the inverse routine of the
    backend taken as the exact inverse: it raises exactly when one of the
    three scales is zero, and otherwise returns the scale matrix of the
    reciprocals. *)
Theorem inverse_create_from_scale (sx sy sz : R) :
  ((exists e, inverse (create_from_scale (sx, sy, sz)) = Raise e)
   <-> sx = 0 \/ sy = 0 \/ sz = 0) /\
  (sx <> 0 -> sy <> 0 -> sz <> 0 ->
   inverse (create_from_scale (sx, sy, sz))
   = Ok (create_from_scale (/ sx, / sy, / sz))).
Proof.
  assert (Hdet : np.det (create_from_scale (sx, sy, sz)) = sx * sy * sz)
    by (unfold create_from_scale, np.diagflat, np.det; ring).
  split; [split |].
  - intros [e He].
    destruct (inverse_cases (create_from_scale (sx, sy, sz)))
      as [[Hz _] | [_ Hok]]; [| congruence].
    rewrite Hdet in Hz.
    apply Rmult_integral in Hz as [Hz | Hz]; [| auto].
    apply Rmult_integral in Hz as [Hz | Hz]; auto.
  - intros Hz.
    destruct (inverse_cases (create_from_scale (sx, sy, sz)))
      as [[_ Hr] | [Hnz _]]; [eexists; exact Hr |].
    exfalso. apply Hnz. rewrite Hdet.
    destruct Hz as [Hz | [Hz | Hz]]; rewrite Hz; ring.
  - intros Hx Hy Hz.
    destruct (inverse_cases (create_from_scale (sx, sy, sz)))
      as [[Hd _] | [_ Hok]].
    + exfalso. rewrite Hdet in Hd.
      apply Rmult_integral in Hd as [Hd | Hd]; [| auto].
      apply Rmult_integral in Hd as [Hd | Hd]; auto.
    + rewrite Hok. f_equal.
      unfold create_from_scale, np.diagflat, np.det, np.scale_mat,
        np.adjugate.
      repeat (f_equal; try (field; repeat split; assumption)).
Qed.

Lemma inverse_create_from_scale_witness :
  inverse (create_from_scale (2, 4, 5))
  = Ok (create_from_scale (/ 2, / 4, / 5)).
Proof.
  apply (inverse_create_from_scale 2 4 5); lra.
Defined.

(** ** Quaternions, continued *)

Lemma quat_sum_sq_nonneg (x y z w : R) :
  0 <= x ^ 2 + y ^ 2 + z ^ 2 + w ^ 2.
Proof.
  pose proof (pow2_ge_0 x). pose proof (pow2_ge_0 y).
  pose proof (pow2_ge_0 z). pose proof (pow2_ge_0 w). lra.
Qed.

Lemma norm_quat_one (x y z w : R) :
  np.norm ((x, y, z, w) : Quaternion) = 1 ->
  x * x + y * y + z * z + w * w = 1.
Proof.
  rewrite norm_quat. intros H.
  pose proof (sqrt_sqrt _ (quat_sum_sq_nonneg x y z w)) as Hs.
  rewrite H in Hs. lra.
Qed.

Lemma quat_matrix_orthonormal (x y z w : R) :
  np.norm ((x, y, z, w) : Quaternion) = 1 ->
  orthonormal (create_from_quaternion (x, y, z, w)).
Proof.
  intros Hn. rewrite (create_from_quaternion_unit _ _ _ _ Hn).
  apply norm_quat_one in Hn.
  unfold orthonormal, np.matmul, np.transpose, np.identity3.
  split; entries.
Qed.

(** X14. For every quaternion of norm 1 the matrix of
    [create_from_quaternion] is orthonormal and has determinant 1. *)
Theorem create_from_quaternion_rotation (x y z w : R) :
  np.norm ((x, y, z, w) : Quaternion) = 1 ->
  orthonormal (create_from_quaternion (x, y, z, w)) /\
  np.det (create_from_quaternion (x, y, z, w)) = 1.
Proof.
  intros Hn. split; [apply quat_matrix_orthonormal, Hn |].
  rewrite (create_from_quaternion_unit _ _ _ _ Hn).
  apply norm_quat_one in Hn. unfold np.det. poly.
Qed.

Lemma create_from_quaternion_rotation_witness :
  orthonormal (create_from_quaternion (3 / 5, 0, 0, 4 / 5)) /\
  np.det (create_from_quaternion (3 / 5, 0, 0, 4 / 5)) = 1.
Proof.
  apply (create_from_quaternion_rotation (3 / 5) 0 0 (4 / 5)).
  rewrite norm_quat.
  replace ((3 / 5) ^ 2 + 0 ^ 2 + 0 ^ 2 + (4 / 5) ^ 2) with 1 by field.
  apply sqrt_1.
Defined.

(** X15. A quaternion and its opposite give the same matrix, whatever
    the norm. *)
Theorem create_from_quaternion_opposite (q : Quaternion) :
  create_from_quaternion (scaled_quat (-1) q) = create_from_quaternion q.
Proof.
  destruct q as [[[x y] z] w]. unfold scaled_quat.
  assert (Hn : np.norm ((-1 * x, -1 * y, -1 * z, -1 * w) : Quaternion)
               = np.norm ((x, y, z, w) : Quaternion))
    by (rewrite !norm_quat; f_equal; ring).
  unfold create_from_quaternion. rewrite Hn.
  destruct (np.isclose (np.norm ((x, y, z, w) : Quaternion)) 1); simpl.
  - tuple_entries; ring.
  - unfold quaternion.normalise. rewrite Hn.
    tuple_entries; unfold Rdiv; ring.
Qed.

Lemma norm_normalise_quat (q : Quaternion) :
  np.norm q <> 0 -> np.norm (quaternion.normalise q) = 1.
Proof.
  destruct q as [[[x y] z] w]. unfold quaternion.normalise.
  rewrite !norm_quat. set (s := x ^ 2 + y ^ 2 + z ^ 2 + w ^ 2). intros Hn.
  assert (Hs : 0 <= s) by apply quat_sum_sq_nonneg.
  replace ((x / sqrt s) ^ 2 + (y / sqrt s) ^ 2 + (z / sqrt s) ^ 2
           + (w / sqrt s) ^ 2)
    with (s / (sqrt s * sqrt s)) by (unfold s; field; exact Hn).
  rewrite (sqrt_sqrt s Hs).
  replace (s / s) with 1; [apply sqrt_1 |].
  field. intros Hz. apply Hn. rewrite Hz. apply sqrt_0.
Qed.

(** X16. A quaternion whose norm is not zero and not close to 1 is
    normalised first: its matrix is the matrix of the normalised
    quaternion, and it is orthonormal. *)
Theorem create_from_quaternion_normalises (q : Quaternion) :
  np.isclose (np.norm q) 1 = false ->
  np.norm q <> 0 ->
  create_from_quaternion q
  = create_from_quaternion (quaternion.normalise q) /\
  orthonormal (create_from_quaternion q).
Proof.
  intros Hfar Hnz.
  pose proof (norm_normalise_quat q Hnz) as Hunit.
  assert (Heq : create_from_quaternion q
                = create_from_quaternion (quaternion.normalise q)).
  { unfold create_from_quaternion at 1 2.
    rewrite Hfar, Hunit, isclose_one. reflexivity. }
  split; [exact Heq |].
  rewrite Heq.
  destruct (quaternion.normalise q) as [[[x y] z] w].
  apply quat_matrix_orthonormal, Hunit.
Qed.

Lemma norm_0_0_0_2 : np.norm ((0, 0, 0, 2) : Quaternion) = 2.
Proof.
  rewrite norm_quat.
  replace (0 ^ 2 + 0 ^ 2 + 0 ^ 2 + 2 ^ 2) with (2 * 2) by ring.
  apply sqrt_square; lra.
Qed.

Lemma isclose_2_1 : np.isclose 2 1 = false.
Proof.
  unfold np.isclose, np.atol, np.rtol.
  destruct (Rle_dec _ _) as [Hle | _]; [exfalso | reflexivity].
  replace (2 - 1) with 1 in Hle by ring.
  rewrite Rabs_R1 in Hle.
  assert (/ 10 ^ 8 <= / 10) by (apply Rinv_le_contravar; lra).
  assert (/ 10 ^ 5 <= / 10) by (apply Rinv_le_contravar; lra).
  lra.
Qed.

Lemma create_from_quaternion_normalises_witness :
  create_from_quaternion (0, 0, 0, 2)
  = create_from_quaternion (quaternion.normalise (0, 0, 0, 2)) /\
  orthonormal (create_from_quaternion (0, 0, 0, 2)).
Proof.
  apply (create_from_quaternion_normalises (0, 0, 0, 2)).
  - rewrite norm_0_0_0_2. apply isclose_2_1.
  - rewrite norm_0_0_0_2. lra.
Defined.

Lemma norm_axis_quat_x (a : R) :
  np.norm ((sin a, 0, 0, cos a) : Quaternion) = 1.
Proof.
  rewrite norm_quat.
  replace (sin a ^ 2 + 0 ^ 2 + 0 ^ 2 + cos a ^ 2)
    with (sin a * sin a + cos a * cos a) by ring.
  rewrite sin_cos_sq. apply sqrt_1.
Qed.

Lemma norm_axis_quat_y (a : R) :
  np.norm ((0, sin a, 0, cos a) : Quaternion) = 1.
Proof.
  rewrite norm_quat.
  replace (0 ^ 2 + sin a ^ 2 + 0 ^ 2 + cos a ^ 2)
    with (sin a * sin a + cos a * cos a) by ring.
  rewrite sin_cos_sq. apply sqrt_1.
Qed.

Lemma norm_axis_quat_z (a : R) :
  np.norm ((0, 0, sin a, cos a) : Quaternion) = 1.
Proof.
  rewrite norm_quat.
  replace (0 ^ 2 + 0 ^ 2 + sin a ^ 2 + cos a ^ 2)
    with (sin a * sin a + cos a * cos a) by ring.
  rewrite sin_cos_sq. apply sqrt_1.
Qed.

(** X17. The quaternion of the rotation by the angle [2 a] about an axis,
    [sin a] on the axis and [cos a] as the scalar part, gives the axis
    rotation matrix of the opposite angle [- (2 a)], for each of the
    three axes. *)
Theorem create_from_quaternion_axis (a : R) :
  create_from_quaternion (sin a, 0, 0, cos a)
  = create_from_x_rotation (- (2 * a)) /\
  create_from_quaternion (0, sin a, 0, cos a)
  = create_from_y_rotation (- (2 * a)) /\
  create_from_quaternion (0, 0, sin a, cos a)
  = create_from_z_rotation (- (2 * a)).
Proof.
  rewrite (create_from_quaternion_unit _ _ _ _ (norm_axis_quat_x a)).
  rewrite (create_from_quaternion_unit _ _ _ _ (norm_axis_quat_y a)).
  rewrite (create_from_quaternion_unit _ _ _ _ (norm_axis_quat_z a)).
  unfold_rotations.
  rewrite cos_neg, sin_neg, sin_2a, cos_2a_sin.
  repeat split; tuple_entries; ring.
Qed.

(** X18. For a quaternion of norm 1, the matrix of
    [create_from_inverse_of_quaternion] is the inverse of the matrix of
    [create_from_quaternion] (their product is the identity) exactly
    when [w * x = 0]. *)
Theorem inverse_of_quaternion_is_inverse_iff (x y z w : R) :
  np.norm ((x, y, z, w) : Quaternion) = 1 ->
  multiply (create_from_quaternion (x, y, z, w))
           (create_from_inverse_of_quaternion (x, y, z, w))
  = create_identity
  <-> w * x = 0.
Proof.
  intros Hn. unfold multiply, create_identity.
  destruct (quat_matrix_orthonormal x y z w Hn) as [Hrows Hcols].
  rewrite <- (transpose_inverse_of_quaternion_iff x y z w Hn).
  split.
  - intros Hprod.
    assert (E : create_from_inverse_of_quaternion (x, y, z, w)
                = np.matmul
                    (np.transpose (create_from_quaternion (x, y, z, w)))
                    (np.matmul
                       (create_from_quaternion (x, y, z, w))
                       (create_from_inverse_of_quaternion (x, y, z, w)))).
    { rewrite <- matmul_assoc, Hcols, matmul_identity3_l. reflexivity. }
    rewrite E, Hprod, matmul_identity3_r. reflexivity.
  - intros <-. exact Hrows.
Qed.

Lemma inverse_of_quaternion_is_inverse_iff_witness :
  multiply (create_from_quaternion (0, 3 / 5, 0, 4 / 5))
           (create_from_inverse_of_quaternion (0, 3 / 5, 0, 4 / 5))
  = create_identity
  <-> 4 / 5 * 0 = 0.
Proof.
  apply (inverse_of_quaternion_is_inverse_iff 0 (3 / 5) 0 (4 / 5)).
  rewrite norm_quat.
  replace (0 ^ 2 + (3 / 5) ^ 2 + 0 ^ 2 + (4 / 5) ^ 2) with 1 by field.
  apply sqrt_1.
Defined.

(** ** [create_direction_scale], continued *)

(** X19. For a scale factor other than 1, [create_direction_scale]
    scales every vector along the direction (and keeps the orthogonal
    part) exactly when the second component [d1] of the direction
    satisfies [d1 * d1 = d1], that is when it is 0 or 1. *)
Theorem create_direction_scale_correct_iff (d0 d1 d2 k : R) :
  k <> 1 ->
  (forall v0 v1 v2 : R,
      apply_to_vector (create_direction_scale (d0, d1, d2) k) [v0; v1; v2]
      = Ok (directional_scaling (d0, d1, d2) k (v0, v1, v2)))
  <-> d1 * d1 = d1.
Proof.
  intros Hk. split.
  - intros H. specialize (H 0 1 0).
    rewrite create_direction_scale_unfold, apply_to_vector_3 in H.
    unfold direction_scale_entries, np.dot, directional_scaling in H.
    simpl in H. injection H as _ H1 _.
    assert (Hm : (k - 1) * (d1 * d1 - d1) = 0) by lra.
    apply Rmult_integral in Hm as [Hm | Hm]; lra.
  - intros Hd v0 v1 v2.
    rewrite create_direction_scale_unfold, apply_to_vector_3.
    unfold direction_scale_entries, np.dot, directional_scaling; simpl.
    repeat (f_equal; try poly).
Qed.

Lemma create_direction_scale_correct_iff_witness :
  (forall v0 v1 v2 : R,
      apply_to_vector (create_direction_scale (3 / 5, 0, 4 / 5) 0)
        [v0; v1; v2]
      = Ok (directional_scaling (3 / 5, 0, 4 / 5) 0 (v0, v1, v2)))
  <-> 0 * 0 = 0.
Proof.
  apply (create_direction_scale_correct_iff (3 / 5) 0 (4 / 5) 0). lra.
Defined.

(** X20. With the scale factor 1 [create_direction_scale] returns the
    identity matrix for every direction, and along a coordinate axis it
    returns the scale matrix that scales this axis only. *)
Theorem create_direction_scale_special_cases (d : Vec3) (k : R) :
  create_direction_scale d 1 = create_identity /\
  create_direction_scale (1, 0, 0) k = create_from_scale (k, 1, 1) /\
  create_direction_scale (0, 1, 0) k = create_from_scale (1, k, 1) /\
  create_direction_scale (0, 0, 1) k = create_from_scale (1, 1, k).
Proof.
  destruct d as [[d0 d1] d2].
  repeat split; rewrite create_direction_scale_unfold;
    unfold direction_scale_entries, create_identity, create_from_scale,
      np.identity3, np.diagflat;
    tuple_entries; ring.
Qed.

(** ** [inverse], continued

    The inverse routine of the backend is taken as the exact inverse
    ([np.linalg_inv]). *)

Lemma inverse_ok_inv (m m' : Matrix33) :
  inverse m = Ok m' ->
  np.det m <> 0 /\
  np.matmul m m' = np.identity3 /\ np.matmul m' m = np.identity3.
Proof.
  intros H.
  destruct (inverse_cases m) as [[_ Hr] | [Hnz Hok]]; [congruence |].
  rewrite Hok in H. injection H as <-.
  split; [exact Hnz |].
  split; [apply matmul_inv_r | apply matmul_inv_l]; exact Hnz.
Qed.

Lemma matmul_inverse_unique (m a b : Matrix33) :
  np.matmul a m = np.identity3 ->
  np.matmul m b = np.identity3 ->
  a = b.
Proof.
  intros Ha Hb.
  rewrite <- (matmul_identity3_r a), <- Hb, <- matmul_assoc, Ha.
  apply matmul_identity3_l.
Qed.

(** X21. When [inverse m] returns [m'], [inverse m'] returns [m]. *)
Theorem inverse_involutive (m m' : Matrix33) :
  inverse m = Ok m' -> inverse m' = Ok m.
Proof.
  intros H. destruct (inverse_ok_inv m m' H) as (Hnz & Hr & Hl).
  assert (Hdet : np.det m' <> 0).
  { intros Hz. apply (f_equal np.det) in Hr.
    rewrite det_matmul, det_identity3, Hz in Hr. lra. }
  destruct (inverse_cases m') as [[Hz _] | [_ Hok]]; [contradiction |].
  rewrite Hok. f_equal. symmetry.
  apply (matmul_inverse_unique m'); [exact Hr |].
  apply matmul_inv_r, Hdet.
Qed.

Lemma inverse_involutive_witness :
  inverse (np.scale_mat (/ np.det np.identity3) (np.adjugate np.identity3))
  = Ok np.identity3.
Proof.
  apply (inverse_involutive np.identity3).
  unfold inverse, np.linalg_inv.
  destruct (Req_dec_T (np.det np.identity3) 0) as [Hz | _];
    [| reflexivity].
  exfalso. unfold np.det, np.identity3 in Hz. lra.
Defined.

Lemma dot_identity3 (a b c : R) : np.dot [a; b; c] np.identity3 = [a; b; c].
Proof. unfold np.dot, np.identity3; simpl. scalars. Qed.

(** X22. When [inverse m] returns [m'], applying [m] and then [m'] to a
    vector of three components gives the vector back, and so does
    applying [m'] and then [m]. *)
Theorem inverse_undoes_apply (m m' : Matrix33) (v : list R) :
  inverse m = Ok m' ->
  length v = 3%nat ->
  and_then (apply_to_vector m v) (apply_to_vector m') = Ok v /\
  and_then (apply_to_vector m' v) (apply_to_vector m) = Ok v.
Proof.
  intros H Hv. destruct (inverse_ok_inv m m' H) as (_ & Hr & Hl).
  destruct v as [| a [| b [| c [| ? ?]]]]; try discriminate Hv.
  rewrite !apply_to_vector_3. simpl and_then.
  destruct (dot_length [a; b; c] m) as (r0 & r1 & r2 & E).
  destruct (dot_length [a; b; c] m') as (s0 & s1 & s2 & E').
  split.
  - rewrite E, apply_to_vector_3, <- E, <- dot_matmul, Hr, dot_identity3.
    reflexivity.
  - rewrite E', apply_to_vector_3, <- E', <- dot_matmul, Hl, dot_identity3.
    reflexivity.
Qed.

Lemma inverse_undoes_apply_witness :
  and_then (apply_to_vector np.identity3 [1; 2; 3])
    (apply_to_vector
       (np.scale_mat (/ np.det np.identity3) (np.adjugate np.identity3)))
  = Ok [1; 2; 3] /\
  and_then
    (apply_to_vector
       (np.scale_mat (/ np.det np.identity3) (np.adjugate np.identity3))
       [1; 2; 3])
    (apply_to_vector np.identity3)
  = Ok [1; 2; 3].
Proof.
  apply (inverse_undoes_apply np.identity3).
  - unfold inverse, np.linalg_inv.
    destruct (Req_dec_T (np.det np.identity3) 0) as [Hz | _];
      [| reflexivity].
    exfalso. unfold np.det, np.identity3 in Hz. lra.
  - reflexivity.
Defined.

(** ** Rays, continued *)

Lemma negated_involutive (d : Vec3) : negated (negated d) = d.
Proof.
  destruct d as [[x y] z]. unfold negated. tuple_entries; ring.
Qed.

(** X23. Inverting a ray and then the result gives a third array that
    holds the origin and the direction of the first one; the first array
    still holds them too, and the second still holds the negated
    direction. *)
Theorem invert_invert (h : gmap ray.loc ray.ndarray) (r : ray.loc)
    (o d : Vec3) :
  h !! r = Some (ray.of_ray (o, d)) ->
  exists r2 h' r3 h'',
    ray.invert r h = ray.Done r2 h' /\
    ray.invert r2 h' = ray.Done r3 h'' /\
    r3 <> r /\ r3 <> r2 /\ r2 <> r /\
    h'' !! r3 = Some (ray.of_ray (o, d)) /\
    h'' !! r2 = Some (ray.of_ray (o, negated d)) /\
    h'' !! r = Some (ray.of_ray (o, d)).
Proof.
  intros Hr.
  destruct (invert_new_array h r o d Hr)
    as (r2 & h' & Hrun & Hfresh & Hr2 & Hframe).
  destruct (invert_new_array h' r2 o (negated d) Hr2)
    as (r3 & h'' & Hrun' & Hfresh' & Hr3 & Hframe').
  rewrite negated_involutive in Hr3.
  assert (Hne : r <> r2) by congruence.
  assert (Hr' : h' !! r = Some (ray.of_ray (o, d)))
    by (rewrite (Hframe r Hne); exact Hr).
  assert (Hne2 : r2 <> r3) by congruence.
  assert (Hne3 : r <> r3) by congruence.
  exists r2, h', r3, h''.
  repeat split; try assumption; try congruence.
  - rewrite (Hframe' r2 Hne2). exact Hr2.
  - rewrite (Hframe' r Hne3). exact Hr'.
Qed.

Lemma invert_invert_witness :
  exists r2 h' r3 h'',
    ray.invert 0%nat {[ 0%nat := ray.of_ray ((1, 2, 3), (0, 0, 1)) ]}
    = ray.Done r2 h' /\
    ray.invert r2 h' = ray.Done r3 h'' /\
    r3 <> 0%nat /\ r3 <> r2 /\ r2 <> 0%nat /\
    h'' !! r3 = Some (ray.of_ray ((1, 2, 3), (0, 0, 1))) /\
    h'' !! r2 = Some (ray.of_ray ((1, 2, 3), negated (0, 0, 1))) /\
    h'' !! 0%nat = Some (ray.of_ray ((1, 2, 3), (0, 0, 1))).
Proof.
  apply (invert_invert {[ 0%nat := ray.of_ray ((1, 2, 3), (0, 0, 1)) ]}
           0%nat (1, 2, 3) (0, 0, 1)).
  apply lookup_singleton_eq.
Defined.

(** X24. On an array of any shape [ray.invert] returns a new array in
    which item 1 is multiplied by -1 and the other items are kept,
    leaving the store as it was otherwise; when the array has no item 1
    (no dimension, or fewer than two items) it raises the index error
    of the item access. *)
Theorem invert_any_array (h : gmap ray.loc ray.ndarray) (r : ray.loc)
    (a : ray.ndarray) :
  h !! r = Some a ->
  (forall x, ray.getitem a 1 = Ok x ->
     exists r2 h',
       ray.invert r h = ray.Done r2 h' /\
       new_array h r2 (ray.setitem a 1 (ray.scale (-1) x)) h') /\
  (forall e, ray.getitem a 1 = Raise e ->
     ray.invert r h = ray.Throw e /\ exists msg, e = IndexError msg).
Proof.
  intros Hr. split.
  - intros x Hx.
    unfold ray.invert, ray.copy, ray.imul_item, ray.bind, ray.load,
      ray.alloc, ray.lift, ray.store, ray.ret.
    rewrite Hr, lookup_insert_eq, Hx, insert_insert_eq.
    do 2 eexists. split; [reflexivity | apply new_array_insert].
  - intros e He. split.
    + unfold ray.invert, ray.copy, ray.imul_item, ray.bind, ray.load,
        ray.alloc, ray.lift, ray.store, ray.ret.
      rewrite Hr, lookup_insert_eq, He. reflexivity.
    + destruct a as [x | items]; simpl in He.
      * injection He as <-. eexists; reflexivity.
      * destruct (items !! 1%nat); [discriminate |].
        injection He as <-. eexists; reflexivity.
Qed.

Lemma invert_any_array_witness :
  (forall x, ray.getitem (ray.Arr [ray.of_vec3 (1, 2, 3)]) 1 = Ok x ->
     exists r2 h',
       ray.invert 0%nat {[ 0%nat := ray.Arr [ray.of_vec3 (1, 2, 3)] ]}
       = ray.Done r2 h' /\
       new_array {[ 0%nat := ray.Arr [ray.of_vec3 (1, 2, 3)] ]} r2
         (ray.setitem (ray.Arr [ray.of_vec3 (1, 2, 3)]) 1
            (ray.scale (-1) x)) h') /\
  (forall e, ray.getitem (ray.Arr [ray.of_vec3 (1, 2, 3)]) 1 = Raise e ->
     ray.invert 0%nat {[ 0%nat := ray.Arr [ray.of_vec3 (1, 2, 3)] ]}
     = ray.Throw e /\ exists msg, e = IndexError msg).
Proof.
  apply (invert_any_array {[ 0%nat := ray.Arr [ray.of_vec3 (1, 2, 3)] ]}
           0%nat (ray.Arr [ray.of_vec3 (1, 2, 3)])).
  apply lookup_singleton_eq.
Defined.

(** X25. On an array that holds a single row, [ray.start] returns a new
    array holding that row and leaves the store as it was otherwise,
    and [ray.direction] raises an index error. *)
Theorem start_direction_single_row (h : gmap ray.loc ray.ndarray)
    (r : ray.loc) (row : ray.ndarray) :
  h !! r = Some (ray.Arr [row]) ->
  (exists s h', ray.start r h = ray.Done s h' /\ new_array h s row h') /\
  (exists msg, ray.direction r h = ray.Throw (IndexError msg)).
Proof.
  intros Hr. split.
  - apply (copy_item_new_array h r (ray.Arr [row]) row 0 Hr). reflexivity.
  - unfold ray.direction, ray.copy_item, ray.bind, ray.load, ray.lift.
    rewrite Hr. simpl. eexists. reflexivity.
Qed.

Lemma start_direction_single_row_witness :
  (exists s h',
      ray.start 0%nat {[ 0%nat := ray.Arr [ray.of_vec3 (1, 2, 3)] ]}
      = ray.Done s h' /\
      new_array {[ 0%nat := ray.Arr [ray.of_vec3 (1, 2, 3)] ]} s
        (ray.of_vec3 (1, 2, 3)) h') /\
  (exists msg,
      ray.direction 0%nat {[ 0%nat := ray.Arr [ray.of_vec3 (1, 2, 3)] ]}
      = ray.Throw (IndexError msg)).
Proof.
  apply (start_direction_single_row
           {[ 0%nat := ray.Arr [ray.of_vec3 (1, 2, 3)] ]} 0%nat
           (ray.of_vec3 (1, 2, 3))).
  apply lookup_singleton_eq.
Defined.

(** *** Constructors

    [vector.normalise] is the division by the length. *)

Lemma vec3_sum_sq_nonneg (x y z : R) : 0 <= x ^ 2 + y ^ 2 + z ^ 2.
Proof.
  pose proof (pow2_ge_0 x). pose proof (pow2_ge_0 y).
  pose proof (pow2_ge_0 z). lra.
Qed.

Lemma norm_scaled (k : R) (d : Vec3) :
  0 < k -> np.norm (scaled k d) = k * np.norm d.
Proof.
  destruct d as [[x y] z]. unfold scaled. rewrite !norm_vec3. intros Hk.
  replace ((k * x) ^ 2 + (k * y) ^ 2 + (k * z) ^ 2)
    with (k * k * (x ^ 2 + y ^ 2 + z ^ 2)) by ring.
  rewrite sqrt_mult; [| nra | apply vec3_sum_sq_nonneg].
  rewrite sqrt_square; lra.
Qed.

Lemma normalise_scaled (k : R) (d : Vec3) :
  0 < k -> np.norm d <> 0 ->
  vector.normalise (scaled k d) = vector.normalise d.
Proof.
  intros Hk Hn.
  pose proof (norm_scaled k d Hk) as Hs.
  destruct d as [[x y] z]. unfold scaled in *. unfold vector.normalise.
  rewrite Hs.
  tuple_entries; field; split; try assumption; lra.
Qed.

Lemma normalise_unit (d : Vec3) :
  np.norm d = 1 -> vector.normalise d = d.
Proof.
  intros Hn. destruct d as [[x y] z]. unfold vector.normalise.
  rewrite Hn. tuple_entries; field.
Qed.

(** X26. The direction of a ray made by [ray.create] depends on the
    given direction only up to a positive factor, and making a ray again
    from the direction of a ray changes nothing: for a direction [d] of
    nonzero length and [k > 0], [create start (k d) = create start d]
    and [create start (direction of (create start d)) = create start
    d]. *)
Theorem create_scale_invariant (start d : Vec3) (k : R) :
  0 < k ->
  np.norm d <> 0 ->
  ray.create start (scaled k d) = ray.create start d /\
  ray.create start (snd (ray.create start d)) = ray.create start d.
Proof.
  intros Hk Hn. unfold ray.create; simpl. split; f_equal.
  - apply normalise_scaled; assumption.
  - apply normalise_unit, norm_normalise, Hn.
Qed.

Lemma create_scale_invariant_witness :
  ray.create (1, 2, 3) (scaled 5 (2, 0, 0)) = ray.create (1, 2, 3) (2, 0, 0) /\
  ray.create (1, 2, 3) (snd (ray.create (1, 2, 3) (2, 0, 0)))
  = ray.create (1, 2, 3) (2, 0, 0).
Proof.
  apply (create_scale_invariant (1, 2, 3) (2, 0, 0) 5).
  - lra.
  - rewrite norm_2_0_0. lra.
Defined.

Lemma norm_sub_swap (a b : Vec3) :
  np.norm (ray.sub a b) = np.norm (ray.sub b a).
Proof.
  destruct a as [[a0 a1] a2], b as [[b0 b1] b2]. unfold ray.sub.
  rewrite !norm_vec3. f_equal. ring.
Qed.

(** X27. [ray.create_from_line] is [ray.create] on the first end point
    and the difference of the end points, and for a line whose end
    points differ, swapping the end points negates the direction of the
    ray. *)
Theorem create_from_line_reversed (a b : Vec3) :
  a <> b ->
  ray.create_from_line (a, b) = ray.create a (ray.sub b a) /\
  snd (ray.create_from_line (b, a))
  = negated (snd (ray.create_from_line (a, b))).
Proof.
  intros _. split; [reflexivity |].
  unfold ray.create_from_line; simpl. unfold vector.normalise.
  pose proof (norm_sub_swap a b) as Hs.
  destruct a as [[a0 a1] a2], b as [[b0 b1] b2].
  unfold ray.sub in *. rewrite Hs. unfold negated.
  tuple_entries; unfold Rdiv; ring.
Qed.

Lemma create_from_line_reversed_witness :
  ray.create_from_line ((1, 1, 1), (1, 1, 3))
  = ray.create (1, 1, 1) (ray.sub (1, 1, 3) (1, 1, 1)) /\
  snd (ray.create_from_line ((1, 1, 3), (1, 1, 1)))
  = negated (snd (ray.create_from_line ((1, 1, 1), (1, 1, 3)))).
Proof.
  apply (create_from_line_reversed (1, 1, 1) (1, 1, 3)).
  intros H. inversion H. lra.
Defined.

(** ** [create_from_matrix44] *)

(** X28. For a 4x4 matrix made of a 3x3 part [m], zeros above the last
    entry of the fourth column and any fourth row (a transform whose
    translation is its fourth row), [create_from_matrix44] gives [m]
    back, and the 3x3 part of its product with any 4x4 matrix [B] is
    [m] times the 3x3 part of [B]. *)
Theorem create_from_matrix44_product (m : Matrix33) (t : Vec4)
    (B : Matrix44) :
  create_from_matrix44 (affine44 m t) = m /\
  create_from_matrix44 (np.matmul44 (affine44 m t) B)
  = multiply m (create_from_matrix44 B).
Proof.
  destruct_mat m. destruct t as [[[t0 t1] t2] t3].
  destruct B as [[[[[[b00 b01] b02] b03] [[[b10 b11] b12] b13]]
                  [[[b20 b21] b22] b23]] [[[b30 b31] b32] b33]].
  split; [reflexivity |].
  unfold create_from_matrix44, affine44, np.matmul44, multiply, np.matmul.
  tuple_entries; ring.
Qed.

(** ** The two branches of [apply_to_vector] *)

(** X29. On a vector of four components whose fourth component is 1,
    [apply_to_vector] returns the result for the first three components,
    followed by 1. *)
Theorem apply_to_vector_w_one (M : Matrix33) (a b c : R) :
  exists r : list R,
    apply_to_vector M [a; b; c] = Ok r /\
    apply_to_vector M [a; b; c; 1] = Ok (r ++ [1]).
Proof.
  eexists. split; [apply apply_to_vector_3 |].
  rewrite apply_to_vector_4.
  replace (a / 1) with a by field.
  replace (b / 1) with b by field.
  replace (c / 1) with c by field.
  reflexivity.
Qed.
